(** * Longitudinal vehicle model: the [Vehicle] class of
    [Longitudinal_Vehicle_Model.ipynb] and the cells that drive it.

    The development has two embeddings of [Vehicle.step].

    The first is on exact rationals [Q], for what the method computes: a
    decimal literal such as [0.35] is the rational 35/100, [+ - *] are
    exact, [**2] is [Qpower], and comparison is numeric equality [==]
    (Python's [5 == 5.0]).  Of the exceptions it keeps the one that this
    arithmetic has, the [ZeroDivisionError] of Python's true division
    ([py_div]); an exception leaves the object as mutated so far.  The
    theorems on it are about the values that a call computes and stores,
    the order in which it does so, and the loops of the cells.

    The second, [Py.step], is on Python's own numbers, binary64 floats and
    unbounded ints, for what the method can raise: it adds the
    [OverflowError] of [**] and of the conversion of an int, and the
    [ValueError] of [math.sin], and it tests the velocity that the floats
    give.  The theorems on whether and how a call ends are on it.

    [math.sin], [math.atan2] and the C library's [sin] and [pow] are
    library functions, not code of the notebook: they are parameters of
    the development. *)

From stdpp Require Import base list.
From Stdlib Require Import QArith Qabs Lqa Lia PrimFloat SpecFloat FloatOps.

Local Open Scope Q_scope.

(** ** The object *)

(** The attributes assigned by [Vehicle.__init__], in the order of the
    source. *)
Record Vehicle : Type := mkVehicle {
  (* Throttle to engine torque *)
  a_0 : Q;
  a_1 : Q;
  a_2 : Q;
  (* Gear ratio, effective radius, mass + inertia *)
  GR : Q;
  r_e : Q;
  J_e : Q;
  m : Q;
  g : Q;
  (* Aerodynamic and friction coefficients *)
  c_a : Q;
  c_r1 : Q;
  (* Tire force *)
  c : Q;
  F_max : Q;
  (* State variables *)
  x : Q;
  v : Q;
  a : Q;
  w_e : Q;
  w_e_dot : Q;
  sample_time : Q
}.

(** [Vehicle()]: the object as [__init__] leaves it. *)
Definition Vehicle_init : Vehicle := {|
  a_0 := 400;
  a_1 := 0.1;
  a_2 := -0.0002;
  GR := 0.35;
  r_e := 0.3;
  J_e := 10;
  m := 2000;
  g := 9.81;
  c_a := 1.36;
  c_r1 := 0.01;
  c := 10000;
  F_max := 10000;
  x := 0;
  v := 5;
  a := 0;
  w_e := 100;
  w_e_dot := 0;
  sample_time := 0.01
|}.

(** Attribute assignment [self.f = val], one function per attribute that
    the methods assign. *)
Definition set_x (val : Q) (self : Vehicle) : Vehicle :=
  mkVehicle self.(a_0) self.(a_1) self.(a_2) self.(GR) self.(r_e) self.(J_e)
    self.(m) self.(g) self.(c_a) self.(c_r1) self.(c) self.(F_max)
    val self.(v) self.(a) self.(w_e) self.(w_e_dot) self.(sample_time).

Definition set_v (val : Q) (self : Vehicle) : Vehicle :=
  mkVehicle self.(a_0) self.(a_1) self.(a_2) self.(GR) self.(r_e) self.(J_e)
    self.(m) self.(g) self.(c_a) self.(c_r1) self.(c) self.(F_max)
    self.(x) val self.(a) self.(w_e) self.(w_e_dot) self.(sample_time).

Definition set_a (val : Q) (self : Vehicle) : Vehicle :=
  mkVehicle self.(a_0) self.(a_1) self.(a_2) self.(GR) self.(r_e) self.(J_e)
    self.(m) self.(g) self.(c_a) self.(c_r1) self.(c) self.(F_max)
    self.(x) self.(v) val self.(w_e) self.(w_e_dot) self.(sample_time).

Definition set_w_e (val : Q) (self : Vehicle) : Vehicle :=
  mkVehicle self.(a_0) self.(a_1) self.(a_2) self.(GR) self.(r_e) self.(J_e)
    self.(m) self.(g) self.(c_a) self.(c_r1) self.(c) self.(F_max)
    self.(x) self.(v) self.(a) val self.(w_e_dot) self.(sample_time).

Definition set_w_e_dot (val : Q) (self : Vehicle) : Vehicle :=
  mkVehicle self.(a_0) self.(a_1) self.(a_2) self.(GR) self.(r_e) self.(J_e)
    self.(m) self.(g) self.(c_a) self.(c_r1) self.(c) self.(F_max)
    self.(x) self.(v) self.(a) self.(w_e) val self.(sample_time).

(** [Vehicle.reset]. *)
Definition reset (self : Vehicle) : Vehicle :=
  let self := set_x 0 self in
  let self := set_v 5 self in
  let self := set_a 0 self in
  let self := set_w_e 100 self in
  let self := set_w_e_dot 0 self in
  self.

(** ** Exceptions *)

Inductive exn : Type := ZeroDivisionError | IndexError.

(** What running a piece of code leaves behind: the mutable data after a
    normal completion, or the exception together with the data as it was
    mutated before the exception. *)
Inductive outcome (A : Type) : Type :=
| Normal (st : A)
| Raised (e : exn) (st : A).

Arguments Normal {A} st.
Arguments Raised {A} e st.

Definition state_of {A : Type} (o : outcome A) : A :=
  match o with
  | Normal st => st
  | Raised _ st => st
  end.

Definition returns {A : Type} (o : outcome A) : bool :=
  match o with
  | Normal _ => true
  | Raised _ _ => false
  end.

(** Python's [p / q]: [None] stands for [ZeroDivisionError]. *)
Definition py_div (p q : Q) : option Q :=
  if Qeq_bool q 0 then None else Some (p / q).

(** The thirteen attributes that the specification calls constant
    parameters, as one tuple. *)
Definition params (self : Vehicle) : list Q :=
  [ self.(a_0); self.(a_1); self.(a_2); self.(GR); self.(r_e); self.(J_e);
    self.(m); self.(g); self.(c_a); self.(c_r1); self.(c); self.(F_max);
    self.(sample_time) ].

(** The five state variables, in the order position, velocity,
    acceleration, engine speed, engine angular acceleration. *)
Definition state_vars (self : Vehicle) : list Q :=
  [ self.(x); self.(v); self.(a); self.(w_e); self.(w_e_dot) ].

(** ** The same method on Python's own numbers

    What [step] can raise depends on the numbers themselves, which the
    rationals above do not have: a [float] is a binary64 value, with its
    rounding, its infinities and its NaN, and an [int] is unbounded.
    [Py.step] is [Vehicle.step] once more, statement by statement, on a
    [Py.Vehicle] whose five state variables are floats and whose thirteen
    constants are those of the constructor (the [int]s among them, and the
    [int]s that the constructor and [reset] store in the state variables,
    written as the floats to which arithmetic converts them, exactly);
    the two arguments are an [int] or a [float] each, as the cells pass
    them.  numpy's [float64] scalars, which do not raise where a [float]
    does, are not in this model. *)
Module Py.

Local Open Scope float_scope.
#[local] Set Warnings "-inexact-float".

(** An argument of [step]. *)
Inductive num : Type :=
| Int (z : Z)
| Float (f : float).

Inductive exn : Type := ZeroDivisionError | OverflowError | ValueError.

(** The value of an expression, or the exception that evaluating it
    raises. *)
Inductive res : Type :=
| Ok (f : float)
| Err (e : exn).

Definition is_ok (r : res) : bool :=
  match r with
  | Ok _ => true
  | Err _ => false
  end.

(** The state variables. *)
Record Vehicle : Type := mkVehicle {
  x : float;
  v : float;
  a : float;
  w_e : float;
  w_e_dot : float
}.

(** The constants, as [__init__] sets them. *)
Definition a_0 : float := 400.
Definition a_1 : float := 0.1.
Definition a_2 : float := -0.0002.
Definition GR : float := 0.35.
Definition r_e : float := 0.3.
Definition J_e : float := 10.
Definition m : float := 2000.
Definition g : float := 9.81.
Definition c_a : float := 1.36.
Definition c_r1 : float := 0.01.
Definition c : float := 10000.
Definition F_max : float := 10000.
Definition sample_time : float := 0.01.

Definition Vehicle_init : Vehicle := {|
  x := 0;
  v := 5;
  a := 0;
  w_e := 100;
  w_e_dot := 0
|}.

Definition set_x (val : float) (self : Vehicle) : Vehicle :=
  mkVehicle val self.(v) self.(a) self.(w_e) self.(w_e_dot).

Definition set_v (val : float) (self : Vehicle) : Vehicle :=
  mkVehicle self.(x) val self.(a) self.(w_e) self.(w_e_dot).

Definition set_a (val : float) (self : Vehicle) : Vehicle :=
  mkVehicle self.(x) self.(v) val self.(w_e) self.(w_e_dot).

Definition set_w_e (val : float) (self : Vehicle) : Vehicle :=
  mkVehicle self.(x) self.(v) self.(a) val self.(w_e_dot).

Definition set_w_e_dot (val : float) (self : Vehicle) : Vehicle :=
  mkVehicle self.(x) self.(v) self.(a) self.(w_e) val.

Inductive outcome : Type :=
| Normal (self : Vehicle)
| Raised (e : exn) (self : Vehicle).

Definition state_of (o : outcome) : Vehicle :=
  match o with
  | Normal self => self
  | Raised _ self => self
  end.

(** The exception that ended a call, if one did. *)
Definition raised (o : outcome) : option exn :=
  match o with
  | Normal _ => None
  | Raised e _ => Some e
  end.

(** The conversion that arithmetic and [math.sin] apply to an operand: a
    [float] is taken as it is; an [int] is rounded to the nearest float,
    ties to even, and raises [OverflowError] when that is out of range
    (from [2**1024 - 2**970] on). *)
Definition to_float (n : num) : res :=
  match n with
  | Float f => Ok f
  | Int z =>
    match binary_normalize prec emax z 0 false with
    | S754_infinity _ => Err OverflowError
    | sf => Ok (SF2Prim sf)
    end
  end.

(** [p / q] on floats. *)
Definition div (p q : float) : res :=
  if q =? 0 then Err ZeroDivisionError else Ok (p / q).

Section Libm.

(** The C library's [sin] and [pow], which [math.sin] and [**] call. *)
Variable sin : float -> float.
Variable pow : float -> float -> float.

(** [math.sin(t)]: [ValueError] at an infinity (where C's [sin] gives
    NaN), NaN at NaN. *)
Definition math_sin (t : num) : res :=
  match to_float t with
  | Err e => Err e
  | Ok f => if is_infinity f then Err ValueError else Ok (sin f)
  end.

(** [p ** 2] on a float: the cases that Python answers itself (NaN, an
    infinity, zero, one), then C's [pow] on the absolute value, with
    [OverflowError] when its result is infinite. *)
Definition pow2 (p : float) : res :=
  if is_nan p then Ok p
  else if is_infinity p then Ok (abs p)
  else if p =? 0 then Ok 0
  else if abs p =? 1 then Ok 1
  else
    let r := pow (abs p) 2 in
    if is_infinity r then Err OverflowError else Ok r.

(** The three [+=] statements of [step]. *)
Definition integrate (self : Vehicle) : Vehicle :=
  let x_dot := self.(v) in
  let v_dot := self.(a) in
  let w_e_dot_ := self.(w_e_dot) in
  let self := set_x (self.(x) + x_dot * sample_time) self in
  let self := set_v (self.(v) + v_dot * sample_time) self in
  let self := set_w_e (self.(w_e) + w_e_dot_ * sample_time) self in
  self.

(** [Vehicle.step], statement by statement. *)
Definition step (throttle alpha : num) (self : Vehicle) : outcome :=
  let x_dot := self.(v) in
  let v_dot := self.(a) in
  let w_e_dot_ := self.(w_e_dot) in
  let self := set_x (self.(x) + x_dot * sample_time) self in
  let self := set_v (self.(v) + v_dot * sample_time) self in
  let self := set_w_e (self.(w_e) + w_e_dot_ * sample_time) self in
  let omega_w := GR * self.(w_e) in
  match div (omega_w * r_e) self.(v) with
  | Err e => Raised e self
  | Ok quot =>
    let s := quot - 1 in
    let F_x := if abs s <? 1 then c * s else F_max in
    match math_sin alpha with
    | Err e => Raised e self
    | Ok sin_alpha =>
      let F_g := m * g * sin_alpha in
      let R_x := c_r1 * self.(v) in
      match pow2 self.(v) with
      | Err e => Raised e self
      | Ok v_squared =>
        let F_aero := c_a * v_squared in
        let F_load := F_aero + R_x + F_g in
        match pow2 self.(w_e) with
        | Err e => Raised e self
        | Ok w_e_squared =>
          match to_float throttle with
          | Err e => Raised e self
          | Ok th =>
            let T_e := th * (a_0 + a_1 * self.(w_e) + a_2 * w_e_squared) in
            (* [self.m] and [self.J_e] are 2000 and 10: the two divisions
               below cannot raise *)
            let self := set_a ((F_x - F_load) / m) self in
            let self := set_w_e_dot ((T_e - GR * r_e * F_load) / J_e) self in
            Normal self
          end
        end
      end
    end
  end.

End Libm.

(** Two functions to run [step] on concrete inputs, in the place of the C
    library's: the first terms of the sine series, and the rounded square.
    No theorem is about them. *)
Definition sin_series (t : float) : float := t - t * t * t / 6.

Definition pow_square (p q : float) : float := p * p.

End Py.

(** Two rational functions to run the model on concrete inputs, in the
    place of [math.sin] and [math.atan2]: the first terms of their series.
    No theorem is about them. *)
Definition sin_poly (t : Q) : Q := t - t ^ 3 / 6.

Definition atan2_lin (y x : Q) : Q := y / x.

Section Model.

(** [from math import sin, atan2]. *)
Variable sin : Q -> Q.
Variable atan2 : Q -> Q -> Q.

(** [Vehicle.step], statement by statement. *)
Definition step (throttle alpha : Q) (self : Vehicle) : outcome Vehicle :=
  let x_dot := self.(v) in
  let v_dot := self.(a) in
  let w_e_dot_ := self.(w_e_dot) in
  let self := set_x (self.(x) + x_dot * self.(sample_time)) self in
  let self := set_v (self.(v) + v_dot * self.(sample_time)) self in
  let self := set_w_e (self.(w_e) + w_e_dot_ * self.(sample_time)) self in
  let omega_w := self.(GR) * self.(w_e) in
  match py_div (omega_w * self.(r_e)) self.(v) with
  | None => Raised ZeroDivisionError self
  | Some quot =>
    let s := quot - 1 in
    let F_x := if Qlt_le_dec (Qabs s) 1 then self.(c) * s else self.(F_max) in
    let F_g := self.(m) * self.(g) * sin alpha in
    let R_x := self.(c_r1) * self.(v) in
    let F_aero := self.(c_a) * self.(v) ^ 2 in
    let F_load := F_aero + R_x + F_g in
    let T_e := throttle *
      (self.(a_0) + self.(a_1) * self.(w_e) + self.(a_2) * self.(w_e) ^ 2) in
    match py_div (F_x - F_load) self.(m) with
    | None => Raised ZeroDivisionError self
    | Some a_new =>
      let self := set_a a_new self in
      match py_div (T_e - self.(GR) * self.(r_e) * F_load) self.(J_e) with
      | None => Raised ZeroDivisionError self
      | Some w_e_dot_new => Normal (set_w_e_dot w_e_dot_new self)
      end
    end
  end.

(** The local names of [step] as functions of the object on which they are
    evaluated, which in [step] is the object after the three [+=]
    statements ([integrate]).  They are used to state the theorems;
    [step_normal] below relates them to [step]. *)
Definition integrate (self : Vehicle) : Vehicle :=
  let x_dot := self.(v) in
  let v_dot := self.(a) in
  let w_e_dot_ := self.(w_e_dot) in
  let self := set_x (self.(x) + x_dot * self.(sample_time)) self in
  let self := set_v (self.(v) + v_dot * self.(sample_time)) self in
  let self := set_w_e (self.(w_e) + w_e_dot_ * self.(sample_time)) self in
  self.

Definition s_of (self : Vehicle) : Q :=
  self.(GR) * self.(w_e) * self.(r_e) / self.(v) - 1.

Definition F_x_of (self : Vehicle) : Q :=
  if Qlt_le_dec (Qabs (s_of self)) 1 then self.(c) * s_of self else self.(F_max).

Definition F_load_of (alpha : Q) (self : Vehicle) : Q :=
  self.(c_a) * self.(v) ^ 2 + self.(c_r1) * self.(v)
  + self.(m) * self.(g) * sin alpha.

Definition T_e_of (throttle : Q) (self : Vehicle) : Q :=
  throttle *
  (self.(a_0) + self.(a_1) * self.(w_e) + self.(a_2) * self.(w_e) ^ 2).

(** A finite sequence of calls [model.step(throttle, alpha)], one after
    the other on the same object; an exception ends the sequence. *)
Fixpoint run_steps (inputs : list (Q * Q)) (self : Vehicle) : outcome Vehicle :=
  match inputs with
  | [] => Normal self
  | (throttle, alpha) :: rest =>
    match step throttle alpha self with
    | Normal self' => run_steps rest self'
    | Raised e self' => Raised e self'
    end
  end.


(** ** The ramp scenario (the cell that fills [x_data]) *)

(** The names of the cell that the loop reads or writes.  [calls] is not
    in the source: it logs, for every call [model.step(th, al)] that the
    loop makes, the object at the moment of the call and the two
    arguments. *)
Record harness : Type := mkHarness {
  x_data : list Q;
  v_data : list Q;
  throttle_data : list Q;
  alpha_data : list Q;
  model : Vehicle;
  calls : list (Vehicle * Q * Q)
}.

Definition set_x_data (val : list Q) (h : harness) : harness :=
  mkHarness val h.(v_data) h.(throttle_data) h.(alpha_data) h.(model) h.(calls).

Definition set_v_data (val : list Q) (h : harness) : harness :=
  mkHarness h.(x_data) val h.(throttle_data) h.(alpha_data) h.(model) h.(calls).

Definition set_throttle_data (val : list Q) (h : harness) : harness :=
  mkHarness h.(x_data) h.(v_data) val h.(alpha_data) h.(model) h.(calls).

Definition set_alpha_data (val : list Q) (h : harness) : harness :=
  mkHarness h.(x_data) h.(v_data) h.(throttle_data) val h.(model) h.(calls).

Definition set_model (val : Vehicle) (h : harness) : harness :=
  mkHarness h.(x_data) h.(v_data) h.(throttle_data) h.(alpha_data) val h.(calls).

Definition log_call (call : Vehicle * Q * Q) (h : harness) : harness :=
  mkHarness h.(x_data) h.(v_data) h.(throttle_data) h.(alpha_data) h.(model)
    (h.(calls) ++ [call]).

(** [arr[i] = y] on an array: [IndexError] (here [None]) out of range. *)
Definition setitem (arr : list Q) (i : nat) (y : Q) : option (list Q) :=
  if decide (i < length arr)%nat then Some (<[i:=y]> arr) else None.

(** [arr[lo:] = vals] and [arr[lo:hi] = vals] for a list [vals] that has
    exactly the length of the slice, which is the case at the three
    assignments of the scenario. *)
Definition setslice (arr : list Q) (lo : nat) (vals : list Q) : list Q :=
  list_inserts lo vals arr.

Definition Qnat (i : nat) : Q := inject_Z (Z.of_nat i).

(** [t_data.shape[0]] for [t_data = np.arange(0, 20, 0.01)]. *)
Definition ramp_n : nat := 2000.

(** The cell up to the loop: the arrays of zeros, [model.reset()] and the
    three slice assignments to [throttle_data]. *)
Definition ramp_setup (model0 : Vehicle) : harness :=
  let n := ramp_n in
  let h := mkHarness (replicate n 0) (replicate n 0) (replicate n 0)
             (replicate n 0) (reset model0) [] in
  let h := set_throttle_data
    (setslice h.(throttle_data) 0
       (map (fun i => 0.2 + 0.3 * Qnat i / Qnat (n / 4)) (seq 0 (n / 4)))) h in
  let h := set_throttle_data
    (setslice h.(throttle_data) (n / 4)
       (replicate (3 * n / 4 - n / 4) 0.5)) h in
  let h := set_throttle_data
    (setslice h.(throttle_data) (3 * n / 4)
       (map (fun i => 0.5 - 0.001 * Qnat i) (seq 0 (n / 4)))) h in
  h.

(** The body of [for i in range(n)]. *)
Definition ramp_body (i : nat) (h : harness) : outcome harness :=
  match setitem h.(x_data) i h.(model).(x) with
  | None => Raised IndexError h
  | Some xd =>
  let h := set_x_data xd h in
  match setitem h.(v_data) i h.(model).(v) with
  | None => Raised IndexError h
  | Some vd =>
  let h := set_v_data vd h in
  match (if Qlt_le_dec h.(model).(x) 60
         then setitem h.(alpha_data) i (atan2 3 60)
         else if Qlt_le_dec h.(model).(x) 150
         then setitem h.(alpha_data) i (atan2 9 90)
         else Some h.(alpha_data)) with
  | None => Raised IndexError h
  | Some ad =>
  let h := set_alpha_data ad h in
  match h.(throttle_data) !! i, h.(alpha_data) !! i with
  | Some th, Some al =>
    let h := log_call (h.(model), th, al) h in
    match step th al h.(model) with
    | Normal model' => Normal (set_model model' h)
    | Raised e model' => Raised e (set_model model' h)
    end
  | _, _ => Raised IndexError h
  end
  end
  end
  end.

(** [for i in idx: body], ended by the first exception. *)
Fixpoint for_range (body : nat -> harness -> outcome harness)
    (idx : list nat) (h : harness) : outcome harness :=
  match idx with
  | [] => Normal h
  | i :: rest =>
    match body i h with
    | Normal h' => for_range body rest h'
    | Raised e h' => Raised e h'
    end
  end.

(** The cell cut after [k] iterations of its loop; the cell itself is
    [ramp_run ramp_n]. *)
Definition ramp_run (k : nat) (model0 : Vehicle) : outcome harness :=
  for_range ramp_body (seq 0 k) (ramp_setup model0).

Definition ramp_scenario (model0 : Vehicle) : outcome harness :=
  ramp_run ramp_n model0.

(** The two profiles of the reference scenario as the specification words
    them, to be compared with what the loop passes to [step]: the throttle
    as a function of the index of the call, the incline as a function of
    the position. *)
Definition throttle_profile (i : nat) : Q :=
  if (i <? 500)%nat then 0.2 + 0.3 * Qnat i / 500
  else if (i <? 1500)%nat then 0.5
  else 0.5 - 0.001 * Qnat (i - 1500).

Definition incline_profile (pos : Q) : Q :=
  if Qlt_le_dec pos 60 then atan2 3 60
  else if Qlt_le_dec pos 150 then atan2 9 90
  else 0.

(** An object whose thirteen constants are those of the constructor; the
    five state variables are arbitrary. *)
Definition constructed (self : Vehicle) : Prop :=
  params self = params Vehicle_init.

(** What the loop keeps true of its arrays and of its log: the arrays
    keep their length; entry [i] of [x_data], [v_data] and [alpha_data]
    holds the position and the velocity of the object on which call [i]
    was made and the incline passed to it; the first call is made on the
    reset object and every later one on the object that the call before it
    returned; the entries from the number of calls on are still zero. *)
Definition records_ok (model0 : Vehicle) (h : harness) : Prop :=
  (length h.(x_data) = ramp_n /\ length h.(v_data) = ramp_n /\
   length h.(alpha_data) = ramp_n /\ length h.(throttle_data) = ramp_n) /\
  (forall i mdl th al,
     h.(calls) !! i = Some (mdl, th, al) ->
     h.(x_data) !! i = Some mdl.(x) /\ h.(v_data) !! i = Some mdl.(v) /\
     h.(alpha_data) !! i = Some al /\ params mdl = params model0) /\
  (forall mdl th al,
     h.(calls) !! 0%nat = Some (mdl, th, al) -> mdl = reset model0) /\
  (forall i mdl th al mdl' th' al',
     h.(calls) !! i = Some (mdl, th, al) ->
     h.(calls) !! S i = Some (mdl', th', al') ->
     step th al mdl = Normal mdl') /\
  (forall j, (length h.(calls) <= j)%nat -> (j < ramp_n)%nat ->
     h.(x_data) !! j = Some 0 /\ h.(v_data) !! j = Some 0 /\
     h.(alpha_data) !! j = Some 0).

(** What holds of the cell cut after [k] iterations, by the way it ended. *)
Definition ramp_post (model0 : Vehicle) (k : nat) (o : outcome harness)
  : Prop :=
  records_ok model0 (state_of o) /\
  match o with
  | Normal h =>
    length h.(calls) = k /\ params h.(model) = params model0 /\
    (k = 0%nat -> h.(model) = reset model0) /\
    (forall i mdl th al,
       S i = k -> h.(calls) !! i = Some (mdl, th, al) ->
       step th al mdl = Normal h.(model))
  | Raised e h =>
    e = ZeroDivisionError /\ (length h.(calls) <= k)%nat /\
    exists i mdl th al,
      S i = length h.(calls) /\ h.(calls) !! i = Some (mdl, th, al) /\
      step th al mdl = Raised ZeroDivisionError h.(model)
  end.

(** ** The constant-throttle cell (the cell that fills [v_data] only) *)

(** The names of the cell that its loop reads or writes. *)
Record cruise : Type := mkCruise {
  cruise_v_data : list Q;
  cruise_model : Vehicle
}.

(** [t_data.shape[0]] for [t_data = np.arange(0, 100, 0.01)]. *)
Definition cruise_n : nat := 100 * 100.

(** The cell up to the loop: [model = Vehicle()] and the array of zeros. *)
Definition cruise_setup : cruise :=
  mkCruise (replicate cruise_n 0) Vehicle_init.

(** The body of [for i in range(t_data.shape[0])]. *)
Definition cruise_body (throttle alpha : Q) (i : nat) (h : cruise)
  : outcome cruise :=
  match setitem h.(cruise_v_data) i h.(cruise_model).(v) with
  | None => Raised IndexError h
  | Some vd =>
    let h := mkCruise vd h.(cruise_model) in
    match step throttle alpha h.(cruise_model) with
    | Normal model' => Normal (mkCruise h.(cruise_v_data) model')
    | Raised e model' => Raised e (mkCruise h.(cruise_v_data) model')
    end
  end.

Fixpoint cruise_loop (throttle alpha : Q) (idx : list nat) (h : cruise)
  : outcome cruise :=
  match idx with
  | [] => Normal h
  | i :: rest =>
    match cruise_body throttle alpha i h with
    | Normal h' => cruise_loop throttle alpha rest h'
    | Raised e h' => Raised e h'
    end
  end.

(** The cell cut after [k] iterations of its loop, with [throttle = 0.2]
    and [alpha = 0]; the cell itself is [cruise_run cruise_n]. *)
Definition cruise_run (k : nat) : outcome cruise :=
  let throttle := 0.2 in
  let alpha := 0 in
  cruise_loop throttle alpha (seq 0 k) cruise_setup.

(** What holds of the cell cut after [k] iterations: its [model] is where
    [k] calls [step(0.2, 0)] on a fresh object lead, and [v_data[i]] is the
    velocity before call [i]. *)
Definition cruise_post (k : nat) (o : outcome cruise) : Prop :=
  length (state_of o).(cruise_v_data) = cruise_n /\
  run_steps (replicate k (0.2, 0)) Vehicle_init =
    match o with
    | Normal h => Normal h.(cruise_model)
    | Raised e h => Raised e h.(cruise_model)
    end /\
  (forall i self_i, (i < k)%nat ->
     run_steps (replicate i (0.2, 0)) Vehicle_init = Normal self_i ->
     (state_of o).(cruise_v_data) !! i = Some self_i.(v)) /\
  (forall h, o = Normal h ->
     forall j, (k <= j)%nat -> (j < cruise_n)%nat ->
     h.(cruise_v_data) !! j = Some 0).

(** ** Basic facts *)

Lemma py_div_some (p q : Q) : ~ q == 0 -> py_div p q = Some (p / q).
Proof.
  intros Hq. unfold py_div.
  destruct (Qeq_bool q 0) eqn:E; [|reflexivity].
  apply Qeq_bool_iff in E. contradiction.
Qed.

Lemma py_div_none (p q : Q) : q == 0 -> py_div p q = None.
Proof.
  intros Hq. unfold py_div. apply Qeq_bool_iff in Hq. now rewrite Hq.
Qed.

(** The two shapes of a call of [step]. *)
Lemma step_normal (throttle alpha : Q) (self : Vehicle) :
  let post := integrate self in
  ~ post.(v) == 0 -> ~ self.(m) == 0 -> ~ self.(J_e) == 0 ->
  step throttle alpha self =
  Normal
    (set_w_e_dot
       ((T_e_of throttle post - self.(GR) * self.(r_e) * F_load_of alpha post)
        / self.(J_e))
       (set_a ((F_x_of post - F_load_of alpha post) / self.(m)) post)).
Proof.
  intros post Hv Hm HJ. unfold step. fold (integrate self). fold post.
  rewrite (py_div_some _ _ Hv).
  replace (m post) with (m self) by reflexivity.
  rewrite (py_div_some _ _ Hm). cbn [J_e set_a].
  replace (J_e post) with (J_e self) by reflexivity.
  rewrite (py_div_some _ _ HJ).
  reflexivity.
Qed.

Lemma step_raised_v (throttle alpha : Q) (self : Vehicle) :
  (integrate self).(v) == 0 ->
  step throttle alpha self = Raised ZeroDivisionError (integrate self).
Proof.
  intros Hv. unfold step. fold (integrate self).
  now rewrite (py_div_none _ _ Hv).
Qed.

Lemma step_raised_m (throttle alpha : Q) (self : Vehicle) :
  ~ (integrate self).(v) == 0 -> self.(m) == 0 ->
  step throttle alpha self = Raised ZeroDivisionError (integrate self).
Proof.
  intros Hv Hm. unfold step. fold (integrate self).
  rewrite (py_div_some _ _ Hv).
  replace (m (integrate self)) with (m self) by reflexivity.
  now rewrite (py_div_none _ _ Hm).
Qed.

Lemma step_raised_J_e (throttle alpha : Q) (self : Vehicle) :
  let post := integrate self in
  ~ post.(v) == 0 -> ~ self.(m) == 0 -> self.(J_e) == 0 ->
  step throttle alpha self =
  Raised ZeroDivisionError
    (set_a ((F_x_of post - F_load_of alpha post) / self.(m)) post).
Proof.
  intros post Hv Hm HJ. unfold step. fold (integrate self). fold post.
  rewrite (py_div_some _ _ Hv).
  replace (m post) with (m self) by reflexivity.
  rewrite (py_div_some _ _ Hm). cbn [J_e set_a].
  replace (J_e post) with (J_e self) by reflexivity.
  now rewrite (py_div_none _ _ HJ).
Qed.

Lemma constructed_fields (self : Vehicle) :
  constructed self ->
  self.(a_0) = 400 /\ self.(a_1) = 0.1 /\ self.(a_2) = -0.0002 /\
  self.(GR) = 0.35 /\ self.(r_e) = 0.3 /\ self.(J_e) = 10 /\
  self.(m) = 2000 /\ self.(g) = 9.81 /\ self.(c_a) = 1.36 /\
  self.(c_r1) = 0.01 /\ self.(c) = 10000 /\ self.(F_max) = 10000 /\
  self.(sample_time) = 0.01.
Proof.
  unfold constructed, params. intros H. injection H. intros. repeat split; assumption.
Qed.

Ltac constants H :=
  destruct (constructed_fields _ H)
    as (Ea0 & Ea1 & Ea2 & EGR & Ere & EJe & Em & Eg & Eca & Ecr1 & Ec & EFmax & Edt).

(** Whatever a call of [step] does, it has executed the three [+=]
    statements and has not touched a constant. *)
Lemma step_state_of (throttle alpha : Q) (self : Vehicle) :
  let self' := state_of (step throttle alpha self) in
  self'.(x) = (integrate self).(x) /\
  self'.(v) = (integrate self).(v) /\
  self'.(w_e) = (integrate self).(w_e) /\
  params self' = params self.
Proof.
  unfold step. fold (integrate self).
  destruct (py_div _ (v (integrate self))); [|now cbn].
  destruct (py_div _ (m (integrate self))); [|now cbn].
  match goal with |- context [py_div ?p ?q] => destruct (py_div p q) end; now cbn.
Qed.

Lemma step_normal_inv (throttle alpha : Q) (self self' : Vehicle) :
  step throttle alpha self = Normal self' ->
  let post := integrate self in
  ~ post.(v) == 0 /\ ~ self.(m) == 0 /\ ~ self.(J_e) == 0 /\
  self' =
    set_w_e_dot
      ((T_e_of throttle post - self.(GR) * self.(r_e) * F_load_of alpha post)
       / self.(J_e))
      (set_a ((F_x_of post - F_load_of alpha post) / self.(m)) post).
Proof.
  intros H post.
  assert (Hv : ~ post.(v) == 0).
  { intros Hv. rewrite (step_raised_v _ _ _ Hv) in H. discriminate. }
  assert (Hm : ~ self.(m) == 0).
  { intros Hm. revert H. unfold step. fold (integrate self). fold post.
    rewrite (py_div_some _ _ Hv).
    replace (m post) with (m self) by reflexivity.
    now rewrite (py_div_none _ _ Hm). }
  assert (HJ : ~ self.(J_e) == 0).
  { intros HJ. revert H. unfold step. fold (integrate self). fold post.
    rewrite (py_div_some _ _ Hv).
    replace (m post) with (m self) by reflexivity.
    rewrite (py_div_some _ _ Hm). cbn [J_e set_a].
    replace (J_e post) with (J_e self) by reflexivity.
    now rewrite (py_div_none _ _ HJ). }
  repeat split; try assumption.
  rewrite (step_normal throttle alpha self Hv Hm HJ) in H.
  now injection H as <-.
Qed.

Lemma reset_constructed (self : Vehicle) :
  constructed self -> reset self = Vehicle_init.
Proof.
  intros H. constants H. destruct self; cbn in *. unfold reset. cbn.
  now subst.
Qed.

Lemma step_constructed (throttle alpha : Q) (self : Vehicle) :
  constructed self -> constructed (state_of (step throttle alpha self)).
Proof.
  unfold constructed. intros H.
  now destruct (step_state_of throttle alpha self) as (_ & _ & _ & ->).
Qed.

Lemma run_steps_constructed (inputs : list (Q * Q)) (self : Vehicle) :
  constructed self -> constructed (state_of (run_steps inputs self)).
Proof.
  revert self. induction inputs as [|[throttle alpha] rest IH]; intros self H.
  - exact H.
  - cbn. pose proof (step_constructed throttle alpha self H) as H'.
    destruct (step throttle alpha self) as [self'|e self']; cbn in *.
    + now apply IH.
    + exact H'.
Qed.

(** ** Theorems *)

(** C1.  Lagged Euler.  On an object with the constants of the constructor
    and any state, a call [step(throttle, alpha)] first advances position,
    velocity and engine speed by [0.01] times the derivatives that the
    object holds on entry, [v], [a] and [w_e_dot]; when it returns, the
    stored [a] and [w_e_dot] are [(F_x - F_load) / m] and
    [(T_e - GR * r_e * F_load) / J_e] evaluated on the object after that
    integration; and the next call advances velocity and engine speed with
    exactly these two values, whatever its own arguments are. *)
Theorem step_lagged_euler (throttle alpha : Q) (self : Vehicle) :
  constructed self ->
  let o := step throttle alpha self in
  let post := integrate self in
  ((state_of o).(x) = self.(x) + self.(v) * 0.01 /\
   (state_of o).(v) = self.(v) + self.(a) * 0.01 /\
   (state_of o).(w_e) = self.(w_e) + self.(w_e_dot) * 0.01) /\
  (forall self', o = Normal self' ->
     self'.(a) = (F_x_of post - F_load_of alpha post) / 2000 /\
     self'.(w_e_dot) =
       (T_e_of throttle post - 0.35 * 0.3 * F_load_of alpha post) / 10) /\
  (forall self' throttle' alpha', o = Normal self' ->
     let next := state_of (step throttle' alpha' self') in
     next.(x) = post.(x) + post.(v) * 0.01 /\
     next.(v) = post.(v) + (F_x_of post - F_load_of alpha post) / 2000 * 0.01 /\
     next.(w_e) = post.(w_e)
       + (T_e_of throttle post - 0.35 * 0.3 * F_load_of alpha post) / 10 * 0.01).
Proof.
  intros H o post. constants H.
  destruct (step_state_of throttle alpha self) as (Hx & Hv & Hw & _).
  fold o in Hx, Hv, Hw.
  split; [|split].
  - rewrite Hx, Hv, Hw. cbn. now rewrite Edt.
  - intros self' Ho. apply step_normal_inv in Ho.
    destruct Ho as (_ & _ & _ & ->). fold post. cbn.
    now rewrite Em, EJe, EGR, Ere.
  - intros self' throttle' alpha' Ho.
    destruct (step_state_of throttle' alpha' self') as (Hx' & Hv' & Hw' & _).
    intros next. fold next in Hx', Hv', Hw'.
    apply step_normal_inv in Ho. destruct Ho as (_ & _ & _ & ->). fold post.
    rewrite Hx', Hv', Hw'. cbn.
    now rewrite Em, EJe, EGR, Ere, Edt.
Qed.

(** C2.  Tire force.  When a call of [step] returns, the acceleration it
    stored is [(F_x - F_load) / m] where, for the slip ratio [s] of the
    object after integration, [F_x] is [c * s] if [|s| < 1] and is [F_max]
    in every other case: in particular for [|s| = 1] and for every
    [s <= -1]. *)
Theorem tire_force_saturates (throttle alpha : Q) (self self' : Vehicle) :
  step throttle alpha self = Normal self' ->
  let post := integrate self in
  let s := post.(GR) * post.(w_e) * post.(r_e) / post.(v) - 1 in
  let F_load := F_load_of alpha post in
  (Qabs s < 1 -> self'.(a) = (self.(c) * s - F_load) / self.(m)) /\
  (~ Qabs s < 1 -> self'.(a) = (self.(F_max) - F_load) / self.(m)) /\
  (Qabs s == 1 -> self'.(a) = (self.(F_max) - F_load) / self.(m)) /\
  (s <= -1 -> self'.(a) = (self.(F_max) - F_load) / self.(m)).
Proof.
  intros Ho post s F_load.
  apply step_normal_inv in Ho. destruct Ho as (_ & _ & _ & ->).
  fold post. cbn [a set_a set_w_e_dot].
  unfold F_x_of. fold F_load. change (s_of post) with s.
  replace (c post) with (c self) by reflexivity.
  replace (F_max post) with (F_max self) by reflexivity.
  assert (Hsat : ~ Qabs s < 1 -> 
            (if Qlt_le_dec (Qabs s) 1 then c self * s else F_max self) = F_max self).
  { intros Hn. destruct (Qlt_le_dec (Qabs s) 1); [contradiction|reflexivity]. }
  repeat split.
  - intros Hlt. destruct (Qlt_le_dec (Qabs s) 1) as [_|Hge]; [reflexivity|].
    exfalso. apply (Qlt_not_le _ _ Hlt Hge).
  - intros Hn. now rewrite Hsat.
  - intros Heq. rewrite Hsat; [reflexivity|]. rewrite Heq. apply Qlt_irrefl.
  - intros Hneg. rewrite Hsat; [reflexivity|].
    intros Hlt. apply Qabs_Qlt_condition in Hlt. destruct Hlt as [Hlt _].
    apply (Qlt_not_le _ _ Hlt Hneg).
Qed.

(** C3.  Reset.  After any finite sequence of [step] calls on a freshly
    constructed object, with any arguments and whether or not a call
    raised, [reset()] leaves the object equal to a freshly constructed one:
    position 0, velocity 5, acceleration 0, engine speed 100, engine
    angular acceleration 0.  The five state variables have these values
    after [reset()] on any object at all. *)
Theorem reset_after_steps (inputs : list (Q * Q)) :
  reset (state_of (run_steps inputs Vehicle_init)) = Vehicle_init /\
  state_vars (reset (state_of (run_steps inputs Vehicle_init)))
    = [0; 5; 0; 100; 0] /\
  (forall self : Vehicle,
     state_vars (reset (state_of (run_steps inputs self)))
       = state_vars Vehicle_init).
Proof.
  assert (H : reset (state_of (run_steps inputs Vehicle_init)) = Vehicle_init).
  { apply reset_constructed, run_steps_constructed. reflexivity. }
  split; [exact H|]. split; [now rewrite H|].
  intros self. reflexivity.
Qed.


(** C7.  Constants.  The constructor sets the thirteen constants, and no
    call of [step] or [reset], and no sequence of [step] calls, changes any
    of them, whether the call returns or raises; what a call can change is
    among [x], [v], [a], [w_e] and [w_e_dot]. *)
Theorem constants_frame :
  params Vehicle_init =
    [400; 0.1; -0.0002; 0.35; 0.3; 10; 2000; 9.81; 1.36; 0.01; 10000; 10000;
     0.01] /\
  (forall throttle alpha self,
     params (state_of (step throttle alpha self)) = params self) /\
  (forall self, params (reset self) = params self) /\
  (forall inputs self,
     params (state_of (run_steps inputs self)) = params self).
Proof.
  split; [reflexivity|]. split; [|split].
  - intros throttle alpha self. apply step_state_of.
  - reflexivity.
  - induction inputs as [|[throttle alpha] rest IH]; intros self; [reflexivity|].
    cbn. pose proof (step_state_of throttle alpha self) as (_ & _ & _ & Hp).
    destruct (step throttle alpha self) as [self'|e self']; cbn in Hp.
    + now rewrite IH.
    + exact Hp.
Qed.

(** An object is its constants and its state variables: with C7, the five
    state variables are all that a call can have written. *)
Lemma vehicle_ext (self1 self2 : Vehicle) :
  params self1 = params self2 -> state_vars self1 = state_vars self2 ->
  self1 = self2.
Proof.
  destruct self1, self2. unfold params, state_vars. cbn.
  intros [= -> -> -> -> -> -> -> -> -> -> -> -> ->] [= -> -> -> -> ->].
  reflexivity.
Qed.

(** C9.  First call.  A fresh object, and an object after [reset()]
    following any calls, holds [a = 0] and [w_e_dot = 0]; its first
    [step], for every throttle and incline, returns with velocity 5, engine
    speed 100 and position 0.05; and two first calls with different
    arguments agree on position, velocity, engine speed and the constants,
    so the arguments reach only the stored [a] and [w_e_dot]. *)
Theorem first_step_from_rest (throttle alpha : Q) :
  (Vehicle_init.(a) = 0 /\ Vehicle_init.(w_e_dot) = 0) /\
  (forall inputs,
     let fresh := reset (state_of (run_steps inputs Vehicle_init)) in
     fresh.(a) = 0 /\ fresh.(w_e_dot) = 0 /\
     exists self', step throttle alpha fresh = Normal self' /\
       self'.(x) == 0.05 /\ self'.(v) == 5 /\ self'.(w_e) == 100) /\
  (exists self', step throttle alpha Vehicle_init = Normal self' /\
     self'.(x) == 0.05 /\ self'.(v) == 5 /\ self'.(w_e) == 100) /\
  (forall throttle' alpha',
     let s1 := state_of (step throttle alpha Vehicle_init) in
     let s2 := state_of (step throttle' alpha' Vehicle_init) in
     s1.(x) = s2.(x) /\ s1.(v) = s2.(v) /\ s1.(w_e) = s2.(w_e) /\
     params s1 = params s2).
Proof.
  assert (Hfirst : exists self', step throttle alpha Vehicle_init = Normal self' /\
     self'.(x) == 0.05 /\ self'.(v) == 5 /\ self'.(w_e) == 100).
  { eexists. split.
    - apply step_normal; cbn; intros E; vm_compute in E; discriminate.
    - cbn. repeat split; reflexivity. }
  split; [now split|]. split; [|split].
  - intros inputs fresh.
    assert (E : fresh = Vehicle_init).
    { apply reset_constructed, run_steps_constructed. reflexivity. }
    rewrite E. repeat split. exact Hfirst.
  - exact Hfirst.
  - intros throttle' alpha'. cbv zeta.
    destruct (step_state_of throttle alpha Vehicle_init) as (-> & -> & -> & ->).
    destruct (step_state_of throttle' alpha' Vehicle_init) as (-> & -> & -> & ->).
    repeat split.
Qed.

(** The numbers of the first call in the notebook's own number format:
    in binary64 the products and sums that give position 0.05, velocity 5
    and engine speed 100 come out as exactly these values. *)
#[warnings="-inexact-float"]
Lemma first_step_binary64 :
  ((0 + 5 * 0.01 =? 0.05) && (5 + 0 * 0.01 =? 5)
   && (100 + 0 * 0.01 =? 100))%float%bool = true.
Proof. vm_compute. reflexivity. Qed.

(** *** The ramp scenario *)

Lemma for_range_snoc (body : nat -> harness -> outcome harness)
    (idx : list nat) (i : nat) (h : harness) :
  for_range body (idx ++ [i]) h =
  match for_range body idx h with
  | Normal h' => body i h'
  | Raised e h' => Raised e h'
  end.
Proof.
  revert h. induction idx as [|i0 idx IH]; intros h; cbn.
  - now destruct (body i h).
  - destruct (body i0 h) as [h'|e h']; [apply IH|reflexivity].
Qed.

Lemma ramp_run_S (k : nat) (model0 : Vehicle) :
  ramp_run (S k) model0 =
  match ramp_run k model0 with
  | Normal h => ramp_body k h
  | Raised e h => Raised e h
  end.
Proof.
  unfold ramp_run. rewrite seq_S. cbn [plus]. apply for_range_snoc.
Qed.

(** The throttle array after the three slice assignments. *)
Lemma ramp_throttle_data (model0 : Vehicle) :
  (ramp_setup model0).(throttle_data) = map throttle_profile (seq 0 ramp_n).
Proof. vm_compute. reflexivity. Qed.


Lemma ramp_body_throttle_data (k : nat) (h : harness) :
  (state_of (ramp_body k h)).(throttle_data) = h.(throttle_data).
Proof.
  unfold ramp_body.
  destruct (setitem (x_data h) k _); [|reflexivity]. cbv zeta.
  destruct (setitem (v_data _) k _); [|reflexivity].
  match goal with |- context [match ?e with Some _ => _ | None => _ end] =>
    destruct e end; [|reflexivity].
  destruct (throttle_data _ !! k) as [th|]; [|reflexivity].
  destruct (alpha_data _ !! k) as [al|]; [|reflexivity].
  match goal with |- context [step ?t ?u ?w] => destruct (step t u w) end;
    reflexivity.
Qed.

Lemma ramp_run_throttle_data (k : nat) (model0 : Vehicle) :
  (state_of (ramp_run k model0)).(throttle_data)
  = (ramp_setup model0).(throttle_data).
Proof.
  induction k as [|k IH]; [reflexivity|].
  rewrite ramp_run_S.
  destruct (ramp_run k model0) as [h|e h]; cbn [state_of] in *; [|exact IH].
  now rewrite ramp_body_throttle_data.
Qed.

(** ** Further properties of [step] *)



(** *** How late the arguments of a call are felt *)

(** Two calls on objects that agree on the constants, position and
    velocity leave the same position, whatever the arguments. *)
Lemma step_agree_x (th1 al1 th2 al2 : Q) (s1 s2 : Vehicle) :
  params s1 = params s2 -> s1.(x) = s2.(x) -> s1.(v) = s2.(v) ->
  (state_of (step th1 al1 s1)).(x) = (state_of (step th2 al2 s2)).(x) /\
  params (state_of (step th1 al1 s1)) = params (state_of (step th2 al2 s2)).
Proof.
  intros Hp Hx Hv.
  destruct (step_state_of th1 al1 s1) as (-> & _ & _ & ->).
  destruct (step_state_of th2 al2 s2) as (-> & _ & _ & ->).
  split; [|exact Hp]. cbn. rewrite Hx, Hv.
  unfold params in Hp. now injection Hp as _ _ _ _ _ _ _ _ _ _ _ _ ->.
Qed.

(** Two calls on objects that agree on the constants, position, velocity
    and acceleration end the same way and leave the same position and
    velocity, whatever the arguments. *)
Lemma step_agree_x_v (th1 al1 th2 al2 : Q) (s1 s2 : Vehicle) :
  params s1 = params s2 -> s1.(x) = s2.(x) -> s1.(v) = s2.(v) ->
  s1.(a) = s2.(a) ->
  let o1 := step th1 al1 s1 in
  let o2 := step th2 al2 s2 in
  returns o1 = returns o2 /\
  (state_of o1).(x) = (state_of o2).(x) /\
  (state_of o1).(v) = (state_of o2).(v) /\
  params (state_of o1) = params (state_of o2).
Proof.
  intros Hp Hx Hv Ha o1 o2.
  assert (Hdt : s1.(sample_time) = s2.(sample_time)).
  { unfold params in Hp. now injection Hp. }
  assert (Hm : s1.(m) = s2.(m)).
  { unfold params in Hp. now injection Hp. }
  assert (HJ : s1.(J_e) = s2.(J_e)).
  { unfold params in Hp. now injection Hp. }
  assert (Hvp : (integrate s1).(v) = (integrate s2).(v)).
  { cbn. now rewrite Hv, Ha, Hdt. }
  destruct (step_state_of th1 al1 s1) as (E1x & E1v & _ & E1p).
  destruct (step_state_of th2 al2 s2) as (E2x & E2v & _ & E2p).
  fold o1 in E1x, E1v, E1p. fold o2 in E2x, E2v, E2p.
  assert (Hr : returns o1 = returns o2).
  { unfold o1, o2.
    destruct (Qeq_dec (integrate s1).(v) 0) as [Hz|Hz].
    { rewrite (step_raised_v _ _ _ Hz).
      rewrite Hvp in Hz. now rewrite (step_raised_v _ _ _ Hz). }
    destruct (Qeq_dec s1.(m) 0) as [Hmz|Hmz].
    { rewrite (step_raised_m _ _ _ Hz Hmz).
      rewrite Hvp in Hz. rewrite Hm in Hmz.
      now rewrite (step_raised_m _ _ _ Hz Hmz). }
    destruct (Qeq_dec s1.(J_e) 0) as [HJz|HJz].
    { rewrite (step_raised_J_e _ _ _ Hz Hmz HJz).
      rewrite Hvp in Hz. rewrite Hm in Hmz. rewrite HJ in HJz.
      now rewrite (step_raised_J_e _ _ _ Hz Hmz HJz). }
    rewrite (step_normal _ _ _ Hz Hmz HJz).
    rewrite Hvp in Hz. rewrite Hm in Hmz. rewrite HJ in HJz.
    now rewrite (step_normal _ _ _ Hz Hmz HJz). }
  split; [exact Hr|].
  rewrite E1x, E2x, E1v, E2v, E1p, E2p.
  split; [|split; [exact Hvp | exact Hp]].
  cbn. now rewrite Hx, Hv, Hdt.
Qed.

(** Two calls on the same object with the same incline leave the same
    acceleration and engine speed as well. *)
Lemma step_agree_a (th1 th2 alpha : Q) (self : Vehicle) :
  (state_of (step th1 alpha self)).(a) = (state_of (step th2 alpha self)).(a) /\
  (state_of (step th1 alpha self)).(w_e) = (state_of (step th2 alpha self)).(w_e).
Proof.
  split.
  - unfold step. fold (integrate self).
    destruct (py_div _ (v (integrate self))); [|reflexivity].
    destruct (py_div _ (m (integrate self))); [|reflexivity].
    cbn [J_e set_a]. unfold py_div.
    destruct (Qeq_bool (J_e (integrate self)) 0); reflexivity.
  - destruct (step_state_of th1 alpha self) as (_ & _ & -> & _).
    now destruct (step_state_of th2 alpha self) as (_ & _ & -> & _).
Qed.

(** *** [reset] and [step] together *)

(** [reset] undoes whatever [step] did, on any object: [reset] after a
    call, or after any sequence of calls, gives what [reset] alone would
    have given, and a second [reset] changes nothing. *)
Theorem reset_absorbs_step (self : Vehicle) :
  (forall throttle alpha,
     reset (state_of (step throttle alpha self)) = reset self) /\
  (forall inputs, reset (state_of (run_steps inputs self)) = reset self) /\
  reset (reset self) = reset self.
Proof.
  assert (Hr : forall s1 s2, params s1 = params s2 -> reset s1 = reset s2).
  { intros s1 s2 Hp. apply vehicle_ext; [exact Hp | reflexivity]. }
  split; [|split].
  - intros throttle alpha. apply Hr. apply step_state_of.
  - intros inputs. apply Hr. revert self.
    induction inputs as [|[throttle alpha] rest IH]; intros self; [reflexivity|].
    cbn. pose proof (step_state_of throttle alpha self) as (_ & _ & _ & Hp).
    destruct (step throttle alpha self) as [self'|e self']; cbn in Hp.
    + now rewrite IH.
    + exact Hp.
  - reflexivity.
Qed.



(** ** Further properties of the ramp scenario *)

Lemma step_raised_exn (throttle alpha : Q) (self self' : Vehicle) (e : exn) :
  step throttle alpha self = Raised e self' -> e = ZeroDivisionError.
Proof.
  unfold step.
  destruct (py_div _ (v _)); [|now intros [= <- _]].
  destruct (py_div _ (m _)); [|now intros [= <- _]].
  match goal with |- context [py_div ?p ?q] => destruct (py_div p q) end;
    [discriminate | now intros [= <- _]].
Qed.

Lemma setitem_lt (arr : list Q) (i : nat) (y : Q) :
  (i < length arr)%nat -> setitem arr i y = Some (<[i:=y]> arr).
Proof.
  intros Hi. unfold setitem. now destruct (decide (i < length arr)%nat).
Qed.

(** One iteration on arrays that are long enough, with [alpha_data[k]]
    still zero. *)
Lemma ramp_body_eq (k : nat) (h : harness) (th : Q) :
  (k < length h.(x_data))%nat -> (k < length h.(v_data))%nat ->
  (k < length h.(alpha_data))%nat ->
  h.(alpha_data) !! k = Some 0 -> h.(throttle_data) !! k = Some th ->
  let mdl := h.(model) in
  let al := incline_profile mdl.(x) in
  let ad :=
    if Qlt_le_dec mdl.(x) 60 then <[k:=atan2 3 60]> h.(alpha_data)
    else if Qlt_le_dec mdl.(x) 150 then <[k:=atan2 9 90]> h.(alpha_data)
    else h.(alpha_data) in
  let h' := mkHarness (<[k:=mdl.(x)]> h.(x_data)) (<[k:=mdl.(v)]> h.(v_data))
              h.(throttle_data) ad mdl (h.(calls) ++ [(mdl, th, al)]) in
  ad !! k = Some al /\
  (forall j, j <> k -> ad !! j = h.(alpha_data) !! j) /\
  length ad = length h.(alpha_data) /\
  ramp_body k h =
  match step th al mdl with
  | Normal model' => Normal (set_model model' h')
  | Raised e model' => Raised e (set_model model' h')
  end.
Proof.
  intros Hx Hv Ha Hz Hth mdl al ad h'.
  assert (Hal : ad !! k = Some al).
  { unfold ad, al, incline_profile.
    destruct (Qlt_le_dec (x mdl) 60); [now apply list_lookup_insert_eq|].
    destruct (Qlt_le_dec (x mdl) 150); [now apply list_lookup_insert_eq|].
    exact Hz. }
  assert (Hne : forall j, j <> k -> ad !! j = h.(alpha_data) !! j).
  { intros j Hj. unfold ad.
    destruct (Qlt_le_dec (x mdl) 60); [now apply list_lookup_insert_ne|].
    destruct (Qlt_le_dec (x mdl) 150); [now apply list_lookup_insert_ne|].
    reflexivity. }
  assert (Hlen : length ad = length h.(alpha_data)).
  { unfold ad.
    destruct (Qlt_le_dec (x mdl) 60); [apply length_insert|].
    destruct (Qlt_le_dec (x mdl) 150); [apply length_insert|].
    reflexivity. }
  split; [exact Hal|]. split; [exact Hne|]. split; [exact Hlen|].
  unfold ramp_body.
  rewrite (setitem_lt _ _ _ Hx). cbv zeta.
  cbn [v_data set_x_data model alpha_data set_v_data].
  rewrite (setitem_lt _ _ _ Hv).
  cbn [v_data set_x_data model alpha_data set_v_data].
  fold mdl.
  assert (Es : (if Qlt_le_dec (x mdl) 60
                then setitem (alpha_data h) k (atan2 3 60)
                else if Qlt_le_dec (x mdl) 150
                     then setitem (alpha_data h) k (atan2 9 90)
                     else Some (alpha_data h)) = Some ad).
  { unfold ad.
    destruct (Qlt_le_dec (x mdl) 60); [now apply setitem_lt|].
    destruct (Qlt_le_dec (x mdl) 150); [now apply setitem_lt|].
    reflexivity. }
  rewrite Es.
  cbn [throttle_data alpha_data set_alpha_data set_v_data set_x_data model].
  rewrite Hth, Hal.
  reflexivity.
Qed.


Lemma ramp_body_post (model0 : Vehicle) (k : nat) (h : harness) :
  (k < ramp_n)%nat -> ramp_post model0 k (Normal h) ->
  ramp_post model0 (S k) (ramp_body k h).
Proof.
  intros Hk [Hrec (Hlen & Hp & H0 & Hlast)]. cbn [state_of] in Hrec.
  destruct Hrec as ((Lx & Lv & La & Lt) & HR & HF & HC & HZ).
  destruct (lookup_lt_is_Some_2 h.(throttle_data) k ltac:(lia)) as [th Hth].
  destruct (HZ k ltac:(lia) Hk) as (_ & _ & Hz).
  destruct (ramp_body_eq k h th ltac:(lia) ltac:(lia) ltac:(lia) Hz Hth)
    as (Hal & Hne & Hlad & ->).
  set (mdl := h.(model)) in *.
  set (al := incline_profile mdl.(x)) in *.
  set (ad := if Qlt_le_dec mdl.(x) 60 then _ else _) in *.
  set (h' := mkHarness _ _ _ _ _ _).
  assert (Hcalls : forall i c, (h.(calls) ++ [(mdl, th, al)]) !! i = Some c ->
            ((i < k)%nat /\ h.(calls) !! i = Some c) \/
            (i = k /\ c = (mdl, th, al))).
  { intros i c Hi. destruct (decide (i < k)%nat) as [Hlt|Hge].
    - left. split; [exact Hlt|]. rewrite lookup_app_l in Hi by lia. exact Hi.
    - right. rewrite lookup_app_r in Hi by lia. rewrite Hlen in Hi.
      destruct (i - k)%nat as [|d] eqn:Ed; [|discriminate].
      cbn in Hi. injection Hi as <-. split; [lia|reflexivity]. }
  assert (Hrec' : forall m', records_ok model0 (set_model m' h')).
  { intros m'. split; [|split; [|split; [|split]]].
    - cbn. rewrite !length_insert. repeat split; try assumption. lia.
    - intros i mdl_i th_i al_i Hi. cbn in Hi |- *.
      destruct (Hcalls _ _ Hi) as [[Hlt Hold] | [-> [= -> -> ->]]].
      + destruct (HR _ _ _ _ Hold) as (Hx & Hv & Ha & Hpi).
        rewrite !list_lookup_insert_ne by lia. rewrite Hne by lia. auto.
      + rewrite !list_lookup_insert_eq by lia. auto.
    - intros mdl_0 th_0 al_0 Hi. cbn in Hi.
      destruct (Hcalls _ _ Hi) as [[Hlt Hold] | [Hk0 [= -> -> ->]]].
      + now apply (HF _ _ _ Hold).
      + apply H0. lia.
    - intros i mdl_i th_i al_i mdl_j th_j al_j Hi Hj. cbn in Hi, Hj.
      destruct (Hcalls _ _ Hj) as [[Hlt Hold] | [Hk0 [= -> -> ->]]].
      + destruct (Hcalls _ _ Hi) as [[_ Hold_i] | [-> _]]; [|lia].
        now apply (HC _ _ _ _ _ _ _ Hold_i Hold).
      + destruct (Hcalls _ _ Hi) as [[_ Hold_i] | [-> _]]; [|lia].
        now apply (Hlast _ _ _ _ Hk0 Hold_i).
    - intros j Hj Hjn. cbn in Hj |- *. rewrite length_app in Hj. cbn in Hj.
      destruct (HZ j ltac:(lia) Hjn) as (Zx & Zv & Za).
      rewrite !list_lookup_insert_ne by lia. rewrite Hne by lia. auto. }
  destruct (step th al mdl) as [m'|e m'] eqn:Es.
  - split; [apply Hrec'|].
    split; [cbn; rewrite length_app; cbn; lia|].
    split.
    { cbn. pose proof (step_state_of th al mdl) as (_ & _ & _ & Hp').
      rewrite Es in Hp'. cbn in Hp'. now rewrite Hp'. }
    split; [discriminate|].
    intros i mdl_i th_i al_i Hi Hl. cbn in Hl |- *.
    destruct (Hcalls _ _ Hl) as [[Hlt _] | [_ [= -> -> ->]]]; [lia|].
    exact Es.
  - split; [apply Hrec'|].
    pose proof (step_raised_exn _ _ _ _ _ Es) as ->.
    split; [reflexivity|].
    split; [cbn; rewrite length_app; cbn; lia|].
    exists k, mdl, th, al. cbn. rewrite length_app. cbn.
    split; [lia|]. split; [|exact Es].
    rewrite lookup_app_r by lia. rewrite Hlen, Nat.sub_diag. reflexivity.
Qed.

Lemma ramp_run_post (model0 : Vehicle) (k : nat) :
  (k <= ramp_n)%nat -> ramp_post model0 k (ramp_run k model0).
Proof.
  induction k as [|k IH]; intros Hk.
  - change (ramp_run 0 model0) with (Normal (ramp_setup model0)).
    split; [|repeat split; try discriminate].
    + cbn [state_of]. split; [|split; [|split; [|split]]].
      * rewrite ramp_throttle_data, length_map, length_seq.
        change (x_data (ramp_setup model0)) with (replicate ramp_n 0).
        change (v_data (ramp_setup model0)) with (replicate ramp_n 0).
        change (alpha_data (ramp_setup model0)) with (replicate ramp_n 0).
        rewrite length_replicate. auto.
      * intros i mdl th al Hi.
        change (calls (ramp_setup model0)) with (@nil (Vehicle * Q * Q)) in Hi.
        discriminate.
      * intros mdl th al Hi.
        change (calls (ramp_setup model0)) with (@nil (Vehicle * Q * Q)) in Hi.
        discriminate.
      * intros i mdl th al mdl' th' al' Hi.
        change (calls (ramp_setup model0)) with (@nil (Vehicle * Q * Q)) in Hi.
        discriminate.
      * intros j _ Hj.
        change (x_data (ramp_setup model0)) with (replicate ramp_n 0).
        change (v_data (ramp_setup model0)) with (replicate ramp_n 0).
        change (alpha_data (ramp_setup model0)) with (replicate ramp_n 0).
        rewrite lookup_replicate_2 by exact Hj. auto.
  - rewrite ramp_run_S. specialize (IH ltac:(lia)).
    destruct (ramp_run k model0) as [h|e h].
    + apply ramp_body_post; [lia|exact IH].
    + destruct IH as [Hrec (He & Hl & Hex)].
      split; [exact Hrec|]. split; [exact He|]. split; [lia|exact Hex].
Qed.


Lemma step_raised_constructed (throttle alpha : Q) (self self' : Vehicle)
    (e : exn) :
  constructed self -> step throttle alpha self = Raised e self' ->
  self' = integrate self /\ self'.(v) == 0.
Proof.
  intros H Hr. constants H.
  destruct (Qeq_dec (integrate self).(v) 0) as [Hv|Hv].
  - rewrite (step_raised_v _ _ _ Hv) in Hr. injection Hr as _ <-. now split.
  - rewrite step_normal in Hr; [discriminate|exact Hv| |].
    + now rewrite Em.
    + now rewrite EJe.
Qed.

(** How the ramp cell ends.  Cut after any [k <= 2000] iterations, with a
    [model] that has the constants of the constructor, the cell never
    raises [IndexError]; its four arrays keep 2000 entries; if it completes,
    it has made exactly [k] calls of [step]; if it raises, the exception is
    the [ZeroDivisionError] of the last call it made, and the velocity of
    [model] is zero. *)
Theorem ramp_loop_outcome (model0 : Vehicle) (k : nat) :
  (k <= ramp_n)%nat -> constructed model0 ->
  let o := ramp_run k model0 in
  (length (state_of o).(x_data) = 2000%nat /\
   length (state_of o).(v_data) = 2000%nat /\
   length (state_of o).(alpha_data) = 2000%nat /\
   length (state_of o).(throttle_data) = 2000%nat) /\
  (forall h, o = Normal h -> length h.(calls) = k) /\
  (forall e h, o = Raised e h ->
     e = ZeroDivisionError /\
     (1 <= length h.(calls))%nat /\ (length h.(calls) <= k)%nat /\
     h.(model).(v) == 0).
Proof.
  intros Hk H0 o. pose proof (ramp_run_post model0 k Hk) as [Hrec Hend].
  fold o in Hrec, Hend.
  split; [apply Hrec|]. split.
  - intros h E. rewrite E in Hend. apply Hend.
  - intros e h E. rewrite E in Hend, Hrec. cbn [state_of] in Hrec.
    destruct Hend as (-> & Hle & i & mdl & th & al & Hi & Hl & Hs).
    split; [reflexivity|]. split; [lia|]. split; [exact Hle|].
    destruct Hrec as (_ & HR & _).
    destruct (HR _ _ _ _ Hl) as (_ & _ & _ & Hp).
    assert (Hc : constructed mdl).
    { unfold constructed. rewrite Hp. exact H0. }
    now destruct (step_raised_constructed _ _ _ _ _ Hc Hs) as [_ Hv].
Qed.

(** What the arrays of the ramp cell hold.  For every call that the loop
    has made, the one of index [i] on the object [mdl] with incline [al],
    [x_data[i]] and [v_data[i]] are the position and the velocity of [mdl]
    and [alpha_data[i]] is [al]; every entry from the number of calls made
    on is still zero. *)
Theorem ramp_arrays_record_calls (model0 : Vehicle) (k : nat) :
  (k <= ramp_n)%nat ->
  let h := state_of (ramp_run k model0) in
  (forall i mdl th al,
     h.(calls) !! i = Some (mdl, th, al) ->
     h.(x_data) !! i = Some mdl.(x) /\
     h.(v_data) !! i = Some mdl.(v) /\
     h.(alpha_data) !! i = Some al) /\
  (forall j, (length h.(calls) <= j)%nat -> (j < 2000)%nat ->
     h.(x_data) !! j = Some 0 /\ h.(v_data) !! j = Some 0 /\
     h.(alpha_data) !! j = Some 0).
Proof.
  intros Hk h. pose proof (ramp_run_post model0 k Hk) as [Hrec _].
  fold h in Hrec. destruct Hrec as (_ & HR & _ & _ & HZ).
  split.
  - intros i mdl th al Hi. destruct (HR _ _ _ _ Hi) as (Hx & Hv & Ha & _).
    auto.
  - exact HZ.
Qed.

(** The calls of the ramp cell form one trajectory: the first call is
    made on the object as [reset()] left it, and every later call on the
    object that the call before it returned. *)
Theorem ramp_calls_chain (model0 : Vehicle) (k : nat) :
  (k <= ramp_n)%nat ->
  let h := state_of (ramp_run k model0) in
  (forall mdl th al,
     h.(calls) !! 0%nat = Some (mdl, th, al) -> mdl = reset model0) /\
  (forall i mdl th al mdl' th' al',
     h.(calls) !! i = Some (mdl, th, al) ->
     h.(calls) !! S i = Some (mdl', th', al') ->
     step th al mdl = Normal mdl').
Proof.
  intros Hk h. pose proof (ramp_run_post model0 k Hk) as [Hrec _].
  fold h in Hrec. destruct Hrec as (_ & _ & HF & HC & _).
  split; assumption.
Qed.

(** The recorded positions integrate the recorded velocities.  With a
    [model] that has the constants of the constructor, [x_data[0]] is 0 and
    [v_data[0]] is 5 once a call has been made, and for every two
    consecutive calls [i] and [i + 1] of the loop
    [x_data[i + 1] = x_data[i] + v_data[i] * 0.01]. *)
Theorem ramp_position_integrates_velocity (model0 : Vehicle) (k i : nat) :
  (k <= ramp_n)%nat -> constructed model0 ->
  let h := state_of (ramp_run k model0) in
  ((0 < length h.(calls))%nat ->
   h.(x_data) !! 0%nat = Some 0 /\ h.(v_data) !! 0%nat = Some 5) /\
  ((S i < length h.(calls))%nat ->
   exists xi vi,
     h.(x_data) !! i = Some xi /\ h.(v_data) !! i = Some vi /\
     h.(x_data) !! S i = Some (xi + vi * 0.01)).
Proof.
  intros Hk H0 h. pose proof (ramp_run_post model0 k Hk) as [Hrec _].
  fold h in Hrec. destruct Hrec as (_ & HR & HF & HC & _).
  split.
  - intros Hl.
    destruct (lookup_lt_is_Some_2 h.(calls) 0 Hl) as [[[mdl th] al] Hc].
    destruct (HR _ _ _ _ Hc) as (Hx & Hv & _).
    rewrite (HF _ _ _ Hc) in Hx, Hv. exact (conj Hx Hv).
  - intros Hl.
    destruct (lookup_lt_is_Some_2 h.(calls) i ltac:(lia)) as [[[mdl th] al] Hc].
    destruct (lookup_lt_is_Some_2 h.(calls) (S i) Hl) as [[[mdl' th'] al'] Hc'].
    destruct (HR _ _ _ _ Hc) as (Hx & Hv & _ & Hp).
    destruct (HR _ _ _ _ Hc') as (Hx' & _).
    pose proof (HC _ _ _ _ _ _ _ Hc Hc') as Hs.
    exists mdl.(x), mdl.(v). split; [exact Hx|]. split; [exact Hv|].
    rewrite Hx'. f_equal.
    pose proof (step_state_of th al mdl) as (Ex & _). rewrite Hs in Ex.
    cbn in Ex. rewrite Ex.
    assert (Hc0 : constructed mdl) by (unfold constructed; now rewrite Hp).
    constants Hc0. now rewrite Edt.
Qed.


(** ** The constant-throttle cell *)

Lemma run_steps_snoc (inputs : list (Q * Q)) (throttle alpha : Q)
    (self : Vehicle) :
  run_steps (inputs ++ [(throttle, alpha)]) self =
  match run_steps inputs self with
  | Normal self' => step throttle alpha self'
  | Raised e self' => Raised e self'
  end.
Proof.
  revert self. induction inputs as [|[th al] rest IH]; intros self; cbn.
  - now destruct (step throttle alpha self).
  - destruct (step th al self) as [self'|e self']; [apply IH|reflexivity].
Qed.

Lemma cruise_loop_snoc (throttle alpha : Q) (idx : list nat) (i : nat)
    (h : cruise) :
  cruise_loop throttle alpha (idx ++ [i]) h =
  match cruise_loop throttle alpha idx h with
  | Normal h' => cruise_body throttle alpha i h'
  | Raised e h' => Raised e h'
  end.
Proof.
  revert h. induction idx as [|i0 idx IH]; intros h; cbn.
  - now destruct (cruise_body throttle alpha i h).
  - destruct (cruise_body throttle alpha i0 h) as [h'|e h'];
      [apply IH|reflexivity].
Qed.

Lemma cruise_run_post (k : nat) :
  (k <= cruise_n)%nat -> cruise_post k (cruise_run k).
Proof.
  induction k as [|k IH]; intros Hk.
  - change (cruise_run 0) with (Normal cruise_setup).
    split; [|split; [|split]].
    + apply length_replicate.
    + reflexivity.
    + intros i self_i Hi. lia.
    + intros h [= <-] j _ Hj. now apply lookup_replicate_2.
  - specialize (IH ltac:(lia)).
    unfold cruise_post, cruise_run in *. cbv zeta in *.
    rewrite seq_S, cruise_loop_snoc. cbn [plus].
    rewrite replicate_S_end, run_steps_snoc.
    destruct (cruise_loop 0.2 0 (seq 0 k) cruise_setup) as [h|e h].
    + destruct IH as (Hlen & Hrun & Hrec & Hzero). cbn [state_of] in *.
      rewrite Hrun. unfold cruise_body.
      rewrite setitem_lt by lia. cbv zeta. cbn [cruise_model cruise_v_data].
      assert (Hrec' : forall i self_i, (i < S k)%nat ->
                run_steps (replicate i (0.2, 0)) Vehicle_init = Normal self_i ->
                <[k:=v (cruise_model h)]> (cruise_v_data h) !! i
                = Some (v self_i)).
      { intros i self_i Hi Hr. destruct (decide (i = k)) as [->|Hne].
        - rewrite Hrun in Hr. injection Hr as <-.
          apply list_lookup_insert_eq. lia.
        - rewrite list_lookup_insert_ne by lia. apply Hrec; [lia|exact Hr]. }
      destruct (step 0.2 0 (cruise_model h)) as [model'|e model'];
        (split; [cbn; rewrite length_insert; exact Hlen|]);
        (split; [reflexivity|]); (split; [exact Hrec'|]).
      * intros h' [= <-] j Hj Hjn. cbn.
        rewrite list_lookup_insert_ne by lia. apply (Hzero h eq_refl); lia.
      * discriminate.
    + destruct IH as (Hlen & Hrun & Hrec & _). cbn [state_of] in *.
      rewrite Hrun.
      split; [exact Hlen|]. split; [reflexivity|]. split; [|discriminate].
      intros i self_i Hi Hr. destruct (decide (i = k)) as [->|Hne].
      * rewrite Hrun in Hr. discriminate.
      * apply Hrec; [lia|exact Hr].
Qed.

(** The constant-throttle cell, cut after any [k <= 10000] iterations:
    its [model] ends where [k] calls [step(0.2, 0)] on a fresh object end,
    an exception included, and the only exception is [ZeroDivisionError]
    (never [IndexError]); [v_data] keeps 10000 entries; [v_data[i]] is the
    velocity that the object has after [i] calls; and when the cell
    completes, the entries from [k] on are still zero. *)
Theorem cruise_records_velocities (k : nat) :
  (k <= cruise_n)%nat ->
  let o := cruise_run k in
  match o with
  | Normal h =>
    run_steps (replicate k (0.2, 0)) Vehicle_init = Normal h.(cruise_model) /\
    (forall j, (k <= j)%nat -> (j < cruise_n)%nat ->
       h.(cruise_v_data) !! j = Some 0)
  | Raised e h =>
    e = ZeroDivisionError /\
    run_steps (replicate k (0.2, 0)) Vehicle_init
      = Raised ZeroDivisionError h.(cruise_model)
  end /\
  length (state_of o).(cruise_v_data) = cruise_n /\
  (forall i self_i, (i < k)%nat ->
     run_steps (replicate i (0.2, 0)) Vehicle_init = Normal self_i ->
     (state_of o).(cruise_v_data) !! i = Some self_i.(v)).
Proof.
  intros Hk o. destruct (cruise_run_post k Hk) as (Hlen & Hrun & Hrec & Hzero).
  fold o in Hlen, Hrun, Hrec, Hzero.
  split; [|split; [exact Hlen | exact Hrec]].
  destruct o as [h|e h].
  - split; [exact Hrun | exact (Hzero h eq_refl)].
  - assert (He : e = ZeroDivisionError).
    { clear -Hrun. revert Hrun. generalize Vehicle_init.
      induction k as [|k IH]; intros self; [discriminate|].
      cbn. destruct (step 0.2 0 self) as [self'|e' self'] eqn:Es.
      - apply IH.
      - intros [= -> _]. exact (step_raised_exn _ _ _ _ _ Es). }
    subst e. now split.
Qed.


(** ** Coasting *)




(** ** What the ramp loop passes to [step] *)

(** Iteration [i] of the ramp loop, when the loop reaches it: with [th]
    the entry [i] of [throttle_data] and [al] the incline of the position
    of [model], it is the call [model.step(th, al)] that moves [model] and
    decides how the iteration ends. *)
Lemma ramp_iteration (model0 : Vehicle) (i : nat) (h : harness) :
  (i < ramp_n)%nat -> ramp_run i model0 = Normal h ->
  let th := throttle_profile i in
  let al := incline_profile h.(model).(x) in
  let o := ramp_run (S i) model0 in
  (ramp_setup model0).(throttle_data) !! i = Some th /\
  h.(throttle_data) !! i = Some th /\
  (state_of o).(alpha_data) !! i = Some al /\
  (state_of o).(model) = state_of (step th al h.(model)) /\
  returns o = returns (step th al h.(model)) /\
  (state_of o).(calls) = h.(calls) ++ [(h.(model), th, al)].
Proof.
  intros Hi Hrun th al o.
  pose proof (ramp_run_post model0 i ltac:(lia)) as Hpost.
  rewrite Hrun in Hpost. destruct Hpost as [Hrec (Hlen & _)].
  cbn [state_of] in Hrec.
  destruct Hrec as ((Lx & Lv & La & Lt) & _ & _ & _ & HZ).
  destruct (HZ i ltac:(lia) Hi) as (_ & _ & Hz).
  pose proof (ramp_run_throttle_data i model0) as Htd.
  rewrite Hrun in Htd. cbn [state_of] in Htd.
  assert (Hth0 : (ramp_setup model0).(throttle_data) !! i = Some th).
  { rewrite ramp_throttle_data, list_lookup_fmap, lookup_seq_lt by exact Hi.
    reflexivity. }
  assert (Hth : h.(throttle_data) !! i = Some th) by (now rewrite Htd).
  destruct (ramp_body_eq i h th ltac:(lia) ltac:(lia) ltac:(lia) Hz Hth)
    as (Hal & _ & _ & Hbody).
  fold al in Hal, Hbody.
  split; [exact Hth0|]. split; [exact Hth|].
  unfold o. rewrite ramp_run_S, Hrun, Hbody.
  destruct (step th al (model h)) as [m'|e m']; cbn; auto.
Qed.

(** C8.  Reference scenario.  Whenever the loop of the ramp cell reaches
    its iteration [i < 2000], with [model] at some position, that
    iteration calls [model.step(th, al)] with
    - [th = 0.2 + 0.3 * i / 500] for [i < 500], [th = 0.5] for
      [500 <= i < 1500], and [th = 0.5 - 0.001 * (i - 1500)] from
      [i = 1500] on, which is [throttle_data[i]];
    - [al = atan2(3, 60)] if the position is below 60, [atan2(9, 90)] if
      it is at least 60 and below 150, and 0 otherwise, which is what
      [alpha_data[i]] then holds:
    after the iteration [model] is what this call of [step] left, and the
    iteration ends as this call ends. *)
Theorem ramp_scenario_supplies (model0 : Vehicle) (i : nat) (h : harness) :
  (i < ramp_n)%nat -> ramp_run i model0 = Normal h ->
  exists th al : Q,
    ((i < 500)%nat -> th = 0.2 + 0.3 * Qnat i / 500) /\
    ((500 <= i)%nat -> (i < 1500)%nat -> th = 0.5) /\
    ((1500 <= i)%nat -> th = 0.5 - 0.001 * Qnat (i - 1500)) /\
    (h.(model).(x) < 60 -> al = atan2 3 60) /\
    (60 <= h.(model).(x) -> h.(model).(x) < 150 -> al = atan2 9 90) /\
    (150 <= h.(model).(x) -> al = 0) /\
    h.(throttle_data) !! i = Some th /\
    (state_of (ramp_run (S i) model0)).(alpha_data) !! i = Some al /\
    (state_of (ramp_run (S i) model0)).(model)
      = state_of (step th al h.(model)) /\
    returns (ramp_run (S i) model0) = returns (step th al h.(model)).
Proof.
  intros Hi Hrun.
  destruct (ramp_iteration model0 i h Hi Hrun) as (_ & Hth & Hal & Hm & Hr & _).
  exists (throttle_profile i), (incline_profile h.(model).(x)).
  split; [|split; [|split]].
  - intros H. unfold throttle_profile. apply Nat.ltb_lt in H. now rewrite H.
  - intros H1 H2. unfold throttle_profile.
    apply Nat.ltb_ge in H1. apply Nat.ltb_lt in H2. now rewrite H1, H2.
  - intros H. unfold throttle_profile.
    assert (H' : (500 <= i)%nat) by lia.
    apply Nat.ltb_ge in H, H'. now rewrite H, H'.
  - unfold incline_profile at 1 2 3.
    split; [|split; [|split]]; [| | |now repeat split].
    + intros H. destruct (Qlt_le_dec (x (model h)) 60) as [_|Hge]; [reflexivity|].
      exfalso. apply (Qlt_not_le _ _ H Hge).
    + intros H1 H2. destruct (Qlt_le_dec (x (model h)) 60) as [Hlt60|_].
      { exfalso. apply (Qlt_not_le _ _ Hlt60 H1). }
      destruct (Qlt_le_dec (x (model h)) 150) as [_|Hge]; [reflexivity|].
      exfalso. apply (Qlt_not_le _ _ H2 Hge).
    + intros H. destruct (Qlt_le_dec (x (model h)) 60) as [Hlt60|_].
      { exfalso. apply (Qlt_not_le _ _ Hlt60).
        apply Qle_trans with 150; [discriminate|exact H]. }
      destruct (Qlt_le_dec (x (model h)) 150) as [Hlt150|_]; [|reflexivity].
      exfalso. apply (Qlt_not_le _ _ Hlt150 H).
Qed.



(** *** How late the arguments of a call are felt, continued *)

(** The arguments of a call are not felt in the position before the
    second call after it.  Whatever the two arguments of a call, and
    whether it returns or raises, it leaves the same position and the same
    velocity; and if two calls with different arguments both return, the
    position after the following call is the same, whatever that call
    does. *)
Theorem arguments_reach_position_late (th1 al1 th2 al2 : Q) (self : Vehicle) :
  (state_of (step th1 al1 self)).(x) = (state_of (step th2 al2 self)).(x) /\
  (state_of (step th1 al1 self)).(v) = (state_of (step th2 al2 self)).(v) /\
  (forall s1 s2 th al,
     step th1 al1 self = Normal s1 -> step th2 al2 self = Normal s2 ->
     (state_of (step th al s1)).(x) = (state_of (step th al s2)).(x)).
Proof.
  destruct (step_agree_x_v th1 al1 th2 al2 self self eq_refl eq_refl eq_refl
              eq_refl) as (_ & Hx & Hv & Hp).
  split; [exact Hx|]. split; [exact Hv|].
  intros s1 s2 th al E1 E2. rewrite E1, E2 in Hx, Hv, Hp. cbn in Hx, Hv, Hp.
  now destruct (step_agree_x th al th al s1 s2 Hp Hx Hv) as [Hx' _].
Qed.

(** The throttle is felt one call later still.  If two calls that differ
    only in the throttle both return, then the following call, whatever
    its arguments and whether it returns or raises, leaves the same
    position and velocity after either; and if it returns after both, the
    position after the third call is the same. *)
Theorem throttle_reaches_position_late (th1 th2 alpha : Q)
    (self s1 s2 : Vehicle) :
  step th1 alpha self = Normal s1 -> step th2 alpha self = Normal s2 ->
  forall th al,
    (state_of (step th al s1)).(x) = (state_of (step th al s2)).(x) /\
    (state_of (step th al s1)).(v) = (state_of (step th al s2)).(v) /\
    (forall t1 t2 th' al',
       step th al s1 = Normal t1 -> step th al s2 = Normal t2 ->
       (state_of (step th' al' t1)).(x) = (state_of (step th' al' t2)).(x)).
Proof.
  intros E1 E2 th al.
  destruct (step_agree_x_v th1 alpha th2 alpha self self eq_refl eq_refl
              eq_refl eq_refl) as (_ & Hx & Hv & Hp).
  destruct (step_agree_a th1 th2 alpha self) as [Ha _].
  rewrite E1, E2 in Hx, Hv, Hp, Ha. cbn in Hx, Hv, Hp, Ha.
  destruct (step_agree_x_v th al th al s1 s2 Hp Hx Hv Ha)
    as (_ & Hx' & Hv' & Hp').
  split; [exact Hx'|]. split; [exact Hv'|].
  intros t1 t2 th' al' F1 F2. rewrite F1, F2 in Hx', Hv', Hp'.
  cbn in Hx', Hv', Hp'.
  now destruct (step_agree_x th' al' th' al' t1 t2 Hp' Hx' Hv') as [Hx'' _].
Qed.


End Model.

(** ** [step] on Python's own numbers *)

Section OnPythonNumbers.

Variable sin : float -> float.
Variable pow : float -> float -> float.

(** The exceptions of the three operations of [step] that can raise
    besides the division. *)
Lemma py_to_float_err (n : Py.num) (e : Py.exn) :
  Py.to_float n = Py.Err e -> e = Py.OverflowError.
Proof.
  destruct n as [z|f]; cbn; [|discriminate].
  destruct (binary_normalize prec emax z 0 false); try discriminate.
  now intros [= <-].
Qed.

Lemma py_math_sin_err (t : Py.num) (e : Py.exn) :
  Py.math_sin sin t = Py.Err e -> e = Py.OverflowError \/ e = Py.ValueError.
Proof.
  unfold Py.math_sin. destruct (Py.to_float t) as [f|e'] eqn:Ef.
  - destruct (is_infinity f); [|discriminate]. intros [= <-]. now right.
  - intros [= <-]. left. exact (py_to_float_err _ _ Ef).
Qed.

Lemma py_pow2_err (p : float) (e : Py.exn) :
  Py.pow2 pow p = Py.Err e -> e = Py.OverflowError.
Proof.
  unfold Py.pow2.
  destruct (is_nan p); [discriminate|].
  destruct (is_infinity p); [discriminate|].
  destruct (p =? 0)%float; [discriminate|].
  destruct (abs p =? 1)%float; [discriminate|].
  destruct (is_infinity (pow (abs p) 2)); [|discriminate].
  now intros [= <-].
Qed.

(** A call of [Py.step] by the first of its steps that raises. *)
Lemma py_step_raised (throttle alpha : Py.num) (self self' : Py.Vehicle)
    (e : Py.exn) :
  Py.step sin pow throttle alpha self = Py.Raised e self' ->
  let post := Py.integrate self in
  self' = post /\
  ((e = Py.ZeroDivisionError /\ (post.(Py.v) =? 0)%float = true) \/
   ((post.(Py.v) =? 0)%float = false /\
    (Py.math_sin sin alpha = Py.Err e \/
     Py.pow2 pow post.(Py.v) = Py.Err e \/
     Py.pow2 pow post.(Py.w_e) = Py.Err e \/
     Py.to_float throttle = Py.Err e))).
Proof.
  unfold Py.step, Py.div. fold (Py.integrate self).
  set (post := Py.integrate self).
  destruct (Py.v post =? 0)%float eqn:Ev.
  { intros [= <- <-]. split; [reflexivity|]. left. now split. }
  destruct (Py.math_sin sin alpha) as [sa|e1] eqn:Es.
  2:{ intros [= <- <-]. split; [reflexivity|]. right. split; [reflexivity|].
      now left. }
  destruct (Py.pow2 pow (Py.v post)) as [v2|e2] eqn:Ep1.
  2:{ intros [= <- <-]. split; [reflexivity|]. right. split; [reflexivity|].
      right. now left. }
  destruct (Py.pow2 pow (Py.w_e post)) as [w2|e3] eqn:Ep2.
  2:{ intros [= <- <-]. split; [reflexivity|]. right. split; [reflexivity|].
      right. right. now left. }
  destruct (Py.to_float throttle) as [th|e4] eqn:Et.
  2:{ intros [= <- <-]. split; [reflexivity|]. right. split; [reflexivity|].
      right. right. now right. }
  discriminate.
Qed.


(** An exception of [step], whichever it is, comes after the three [+=]
    statements and before the two assignments of derivatives: position,
    velocity and engine speed are advanced, [a] and [w_e_dot] are as they
    were; and it is [ZeroDivisionError] exactly when the velocity after
    integration, as computed, is zero. *)
Theorem step_exception_leaves_derivatives
    (throttle alpha : Py.num) (self self' : Py.Vehicle) (e : Py.exn) :
  Py.step sin pow throttle alpha self = Py.Raised e self' ->
  self' = Py.integrate self /\
  self'.(Py.a) = self.(Py.a) /\
  self'.(Py.w_e_dot) = self.(Py.w_e_dot) /\
  (e = Py.ZeroDivisionError <-> ((Py.integrate self).(Py.v) =? 0)%float = true).
Proof.
  intros Ho. apply py_step_raised in Ho. destruct Ho as [-> Hc].
  split; [reflexivity|]. split; [reflexivity|]. split; [reflexivity|].
  destruct Hc as [[-> Hz] | [Hv Hc]].
  - now split.
  - split; [|intros Hz; rewrite Hz in Hv; discriminate].
    intros ->. exfalso.
    destruct Hc as [Hs | [Hp | [Hp | Ht]]].
    + destruct (py_math_sin_err _ _ Hs); discriminate.
    + pose proof (py_pow2_err _ _ Hp). discriminate.
    + pose proof (py_pow2_err _ _ Hp). discriminate.
    + pose proof (py_to_float_err _ _ Ht). discriminate.
Qed.

(** C10, in the form that holds of the code.  From the same object and with the same incline, two
    calls of [step] leave the same position, velocity and engine speed
    whatever their throttles; if both throttles are floats, or ints that
    convert to a float, the two calls also end the same way (both return,
    or both raise the same exception) and leave the same acceleration, so
    that only [w_e_dot] can differ. *)
Theorem float_throttle_reaches_only_w_e_dot
    (alpha throttle1 throttle2 : Py.num) (self : Py.Vehicle) :
  let o1 := Py.step sin pow throttle1 alpha self in
  let o2 := Py.step sin pow throttle2 alpha self in
  ((Py.state_of o1).(Py.x) = (Py.state_of o2).(Py.x) /\
   (Py.state_of o1).(Py.v) = (Py.state_of o2).(Py.v) /\
   (Py.state_of o1).(Py.w_e) = (Py.state_of o2).(Py.w_e)) /\
  (Py.is_ok (Py.to_float throttle1) = true ->
   Py.is_ok (Py.to_float throttle2) = true ->
   Py.raised o1 = Py.raised o2 /\
   (Py.state_of o1).(Py.a) = (Py.state_of o2).(Py.a)) /\
  (forall f1 f2 : float,
     throttle1 = Py.Float f1 -> throttle2 = Py.Float f2 ->
     Py.raised o1 = Py.raised o2 /\
     (Py.state_of o1).(Py.a) = (Py.state_of o2).(Py.a)).
Proof.
  intros o1 o2.
  assert (Hmain : Py.is_ok (Py.to_float throttle1) = true ->
                  Py.is_ok (Py.to_float throttle2) = true ->
                  Py.raised o1 = Py.raised o2 /\
                  (Py.state_of o1).(Py.a) = (Py.state_of o2).(Py.a)).
  { intros H1 H2. unfold o1, o2, Py.step, Py.div.
    fold (Py.integrate self).
    destruct (Py.v (Py.integrate self) =? 0)%float; [now split|].
    destruct (Py.math_sin sin alpha); [|now split].
    destruct (Py.pow2 pow (Py.v (Py.integrate self))); [|now split].
    destruct (Py.pow2 pow (Py.w_e (Py.integrate self))); [|now split].
    destruct (Py.to_float throttle1); [|discriminate].
    destruct (Py.to_float throttle2); [|discriminate].
    now split. }
  split; [|split; [exact Hmain|]].
  - unfold o1, o2, Py.step, Py.div. fold (Py.integrate self).
    destruct (Py.v (Py.integrate self) =? 0)%float; [now repeat split|].
    destruct (Py.math_sin sin alpha); [|now repeat split].
    destruct (Py.pow2 pow (Py.v (Py.integrate self))); [|now repeat split].
    destruct (Py.pow2 pow (Py.w_e (Py.integrate self))); [|now repeat split].
    destruct (Py.to_float throttle1), (Py.to_float throttle2);
      now repeat split.
  - intros f1 f2 -> ->. now apply Hmain.
Qed.

End OnPythonNumbers.


(** C10 does not hold as the specification words it: from the fresh object and with the
    same incline, [step(0.2, 0)] returns with a new acceleration, while
    [step(10**400, 0)] raises [OverflowError] before the acceleration is
    assigned and leaves it at 0. *)
#[warnings="-inexact-float"]
Lemma huge_int_throttle_changes_acceleration :
  let o1 := Py.step Py.sin_series Py.pow_square (Py.Float 0.2) (Py.Int 0)
              Py.Vehicle_init in
  let o2 := Py.step Py.sin_series Py.pow_square (Py.Int (10 ^ 400)) (Py.Int 0)
              Py.Vehicle_init in
  Py.raised o1 = None /\
  Py.raised o2 = Some Py.OverflowError /\
  (Py.state_of o2).(Py.a) = 0%float /\
  ((Py.state_of o1).(Py.a) =? (Py.state_of o2).(Py.a))%float = false.
Proof. repeat split; vm_compute; reflexivity. Qed.


(** ** The theorems at concrete inputs *)

Lemma tire_force_saturates_witness :
  let self' := state_of (step sin_poly 0.2 0 Vehicle_init) in
  step sin_poly 0.2 0 Vehicle_init = Normal self' /\
  self'.(a) = (10000 - F_load_of sin_poly 0 (integrate Vehicle_init)) / 2000.
Proof.
  intros self'.
  assert (H : step sin_poly 0.2 0 Vehicle_init = Normal self')
    by (vm_compute; reflexivity).
  split; [exact H|].
  refine (proj1 (proj2 (tire_force_saturates sin_poly 0.2 0 Vehicle_init
                          self' H)) _).
  intros Hlt. vm_compute in Hlt. discriminate.
Defined.



Lemma ramp_loop_outcome_witness :
  (2 <= ramp_n)%nat /\ constructed Vehicle_init /\
  length (state_of (ramp_run sin_poly atan2_lin 2 Vehicle_init)).(x_data)
    = 2000%nat.
Proof.
  assert (Hk : (2 <= ramp_n)%nat) by (unfold ramp_n; lia).
  split; [exact Hk|]. split; [reflexivity|].
  exact (proj1 (proj1 (ramp_loop_outcome sin_poly atan2_lin Vehicle_init 2
                         Hk eq_refl))).
Defined.

Lemma ramp_arrays_record_calls_witness :
  (1 <= ramp_n)%nat /\
  (state_of (ramp_run sin_poly atan2_lin 1 Vehicle_init)).(v_data) !! 0%nat
    = Some 5 /\
  (state_of (ramp_run sin_poly atan2_lin 1 Vehicle_init)).(v_data) !! 1%nat
    = Some 0.
Proof.
  assert (Hk : (1 <= ramp_n)%nat) by (unfold ramp_n; lia).
  assert (Hi : (state_of (ramp_run sin_poly atan2_lin 1 Vehicle_init)).(calls)
                 !! 0%nat
               = Some (Vehicle_init, 0.2 + 0.3 * Qnat 0 / Qnat 500,
                       atan2_lin 3 60))
    by (vm_compute; reflexivity).
  assert (Hl : length (state_of (ramp_run sin_poly atan2_lin 1 Vehicle_init)).(calls)
               = 1%nat) by (vm_compute; reflexivity).
  pose proof (ramp_arrays_record_calls sin_poly atan2_lin Vehicle_init 1 Hk)
    as [Hrec Hzero].
  split; [exact Hk|]. split.
  - exact (proj1 (proj2 (Hrec _ _ _ _ Hi))).
  - refine (proj1 (proj2 (Hzero 1%nat _ _))); [rewrite Hl|]; lia.
Defined.

Lemma ramp_calls_chain_witness :
  (1 <= ramp_n)%nat /\
  (state_of (ramp_run sin_poly atan2_lin 1 Vehicle_init)).(calls) !! 0%nat
    = Some (Vehicle_init, 0.2 + 0.3 * Qnat 0 / Qnat 500, atan2_lin 3 60) /\
  Vehicle_init = reset Vehicle_init.
Proof.
  assert (Hk : (1 <= ramp_n)%nat) by (unfold ramp_n; lia).
  assert (Hi : (state_of (ramp_run sin_poly atan2_lin 1 Vehicle_init)).(calls)
                 !! 0%nat
               = Some (Vehicle_init, 0.2 + 0.3 * Qnat 0 / Qnat 500,
                       atan2_lin 3 60))
    by (vm_compute; reflexivity).
  split; [exact Hk|]. split; [exact Hi|].
  exact (proj1 (ramp_calls_chain sin_poly atan2_lin Vehicle_init 1 Hk) _ _ _ Hi).
Defined.

Lemma ramp_position_integrates_velocity_witness :
  (2 <= ramp_n)%nat /\ constructed Vehicle_init /\
  (1 < length (state_of (ramp_run sin_poly atan2_lin 2 Vehicle_init)).(calls))%nat /\
  exists xi vi,
    (state_of (ramp_run sin_poly atan2_lin 2 Vehicle_init)).(x_data) !! 0%nat
      = Some xi /\
    (state_of (ramp_run sin_poly atan2_lin 2 Vehicle_init)).(v_data) !! 0%nat
      = Some vi /\
    (state_of (ramp_run sin_poly atan2_lin 2 Vehicle_init)).(x_data) !! 1%nat
      = Some (xi + vi * 0.01).
Proof.
  assert (Hk : (2 <= ramp_n)%nat) by (unfold ramp_n; lia).
  assert (Hl : (1 < length (state_of (ramp_run sin_poly atan2_lin 2
                                        Vehicle_init)).(calls))%nat)
    by (vm_compute; lia).
  split; [exact Hk|]. split; [reflexivity|]. split; [exact Hl|].
  exact (proj2 (ramp_position_integrates_velocity sin_poly atan2_lin
                  Vehicle_init 2 0 Hk eq_refl) Hl).
Defined.

Lemma cruise_records_velocities_witness :
  (2 <= cruise_n)%nat /\
  (state_of (cruise_run sin_poly 2)).(cruise_v_data) !! 1%nat
    = Some (state_of (step sin_poly 0.2 0 Vehicle_init)).(v).
Proof.
  assert (Hk : (2 <= cruise_n)%nat) by (unfold cruise_n; lia).
  assert (Hr : run_steps sin_poly (replicate 1 (0.2, 0)) Vehicle_init
               = Normal (state_of (step sin_poly 0.2 0 Vehicle_init)))
    by (vm_compute; reflexivity).
  split; [exact Hk|].
  pose proof (cruise_records_velocities sin_poly 2 Hk) as H.
  cbv zeta in H. destruct H as (_ & _ & H).
  exact (H 1%nat _ ltac:(lia) Hr).
Defined.


Lemma ramp_scenario_supplies_witness :
  let h1 := state_of (ramp_run sin_poly atan2_lin 1 Vehicle_init) in
  (1 < ramp_n)%nat /\
  ramp_run sin_poly atan2_lin 1 Vehicle_init = Normal h1 /\
  h1.(model).(x) < 60 /\
  exists th al : Q,
    th = 0.2 + 0.3 * Qnat 1 / 500 /\ al = atan2_lin 3 60 /\
    (state_of (ramp_run sin_poly atan2_lin 2 Vehicle_init)).(model)
      = state_of (step sin_poly th al h1.(model)) /\
    returns (ramp_run sin_poly atan2_lin 2 Vehicle_init)
      = returns (step sin_poly th al h1.(model)).
Proof.
  intros h1.
  assert (Hi : (1 < ramp_n)%nat) by (unfold ramp_n; lia).
  assert (Hrun : ramp_run sin_poly atan2_lin 1 Vehicle_init = Normal h1)
    by (vm_compute; reflexivity).
  assert (Hx : h1.(model).(x) < 60) by (vm_compute; reflexivity).
  split; [exact Hi|]. split; [exact Hrun|]. split; [exact Hx|].
  destruct (ramp_scenario_supplies sin_poly atan2_lin Vehicle_init 1 h1 Hi Hrun)
    as (th & al & Hth & _ & _ & Hal & _ & _ & _ & _ & Hm & Hr).
  exists th, al. split; [apply Hth; lia|]. split; [apply Hal; exact Hx|].
  split; [exact Hm | exact Hr].
Defined.


Lemma step_lagged_euler_witness :
  let post := integrate Vehicle_init in
  constructed Vehicle_init /\
  exists self',
    step sin_poly 0.2 0 Vehicle_init = Normal self' /\
    (self'.(x) = 0 + 5 * 0.01 /\
     self'.(v) = 5 + 0 * 0.01 /\
     self'.(w_e) = 100 + 0 * 0.01) /\
    (self'.(a) = (F_x_of post - F_load_of sin_poly 0 post) / 2000 /\
     self'.(w_e_dot)
       = (T_e_of 0.2 post - 0.35 * 0.3 * F_load_of sin_poly 0 post) / 10) /\
    (self'.(a) == 4.982975 /\ self'.(w_e_dot) == 7.802475) /\
    (state_of (step sin_poly 0.5 0 self')).(v)
      = post.(v) + (F_x_of post - F_load_of sin_poly 0 post) / 2000 * 0.01.
Proof.
  intros post. split; [reflexivity|].
  exists (state_of (step sin_poly 0.2 0 Vehicle_init)).
  assert (Ho : step sin_poly 0.2 0 Vehicle_init
               = Normal (state_of (step sin_poly 0.2 0 Vehicle_init)))
    by (vm_compute; reflexivity).
  destruct (step_lagged_euler sin_poly 0.2 0 Vehicle_init eq_refl)
    as (Hint & Hder & Hnext).
  split; [exact Ho|]. split; [exact Hint|]. split; [exact (Hder _ Ho)|].
  split; [split; vm_compute; reflexivity|].
  exact (proj1 (proj2 (Hnext _ 0.5 0 Ho))).
Defined.

Lemma arguments_reach_position_late_witness :
  let s1 := state_of (step sin_poly 0.2 0 Vehicle_init) in
  let s2 := state_of (step sin_poly 0.5 0.1 Vehicle_init) in
  step sin_poly 0.2 0 Vehicle_init = Normal s1 /\
  step sin_poly 0.5 0.1 Vehicle_init = Normal s2 /\
  ~ s1.(a) == s2.(a) /\
  (state_of (step sin_poly 0.3 0 s1)).(x)
    = (state_of (step sin_poly 0.3 0 s2)).(x).
Proof.
  intros s1 s2.
  assert (E1 : step sin_poly 0.2 0 Vehicle_init = Normal s1)
    by (vm_compute; reflexivity).
  assert (E2 : step sin_poly 0.5 0.1 Vehicle_init = Normal s2)
    by (vm_compute; reflexivity).
  split; [exact E1|]. split; [exact E2|].
  split; [intros E; vm_compute in E; discriminate|].
  exact (proj2 (proj2 (arguments_reach_position_late sin_poly 0.2 0 0.5 0.1
                         Vehicle_init)) s1 s2 0.3 0 E1 E2).
Defined.

Lemma throttle_reaches_position_late_witness :
  let s1 := state_of (step sin_poly 0.2 0 Vehicle_init) in
  let s2 := state_of (step sin_poly 0.5 0 Vehicle_init) in
  step sin_poly 0.2 0 Vehicle_init = Normal s1 /\
  step sin_poly 0.5 0 Vehicle_init = Normal s2 /\
  ~ s1.(w_e_dot) == s2.(w_e_dot) /\
  (state_of (step sin_poly 0.3 0 s1)).(v)
    = (state_of (step sin_poly 0.3 0 s2)).(v).
Proof.
  intros s1 s2.
  assert (E1 : step sin_poly 0.2 0 Vehicle_init = Normal s1)
    by (vm_compute; reflexivity).
  assert (E2 : step sin_poly 0.5 0 Vehicle_init = Normal s2)
    by (vm_compute; reflexivity).
  split; [exact E1|]. split; [exact E2|].
  split; [intros E; vm_compute in E; discriminate|].
  exact (proj1 (proj2 (throttle_reaches_position_late sin_poly 0.2 0.5 0
                         Vehicle_init s1 s2 E1 E2 0.3 0))).
Defined.

#[local] Set Warnings "-inexact-float".


#[warnings="-inexact-float"]
Lemma step_exception_leaves_derivatives_witness :
  Py.step Py.sin_series Py.pow_square (Py.Float 0.2) (Py.Float infinity)
    Py.Vehicle_init
  = Py.Raised Py.ValueError (Py.integrate Py.Vehicle_init) /\
  (Py.integrate Py.Vehicle_init).(Py.a) = Py.Vehicle_init.(Py.a).
Proof.
  assert (Ho : Py.step Py.sin_series Py.pow_square (Py.Float 0.2)
                 (Py.Float infinity) Py.Vehicle_init
               = Py.Raised Py.ValueError (Py.integrate Py.Vehicle_init))
    by (vm_compute; reflexivity).
  split; [exact Ho|].
  exact (proj1 (proj2 (step_exception_leaves_derivatives Py.sin_series
                         Py.pow_square _ _ _ _ _ Ho))).
Defined.

#[warnings="-inexact-float"]
Lemma float_throttle_reaches_only_w_e_dot_witness :
  let o1 := Py.step Py.sin_series Py.pow_square (Py.Int 0) (Py.Int 0)
              Py.Vehicle_init in
  let o2 := Py.step Py.sin_series Py.pow_square (Py.Float 0.5) (Py.Int 0)
              Py.Vehicle_init in
  Py.is_ok (Py.to_float (Py.Int 0)) = true /\
  Py.is_ok (Py.to_float (Py.Float 0.5)) = true /\
  Py.raised o1 = None /\ Py.raised o2 = None /\
  ((Py.state_of o1).(Py.w_e_dot) =? (Py.state_of o2).(Py.w_e_dot))%float = false /\
  (Py.state_of o1).(Py.a) = (Py.state_of o2).(Py.a).
Proof.
  intros o1 o2.
  split; [vm_compute; reflexivity|]. split; [reflexivity|].
  split; [vm_compute; reflexivity|]. split; [vm_compute; reflexivity|].
  split; [vm_compute; reflexivity|].
  apply (proj1 (proj2 (float_throttle_reaches_only_w_e_dot Py.sin_series
                         Py.pow_square (Py.Int 0) (Py.Int 0) (Py.Float 0.5)
                         Py.Vehicle_init)));
    vm_compute; reflexivity.
Defined.
